(** * Voice AI assistant: the after-hours financial dialogue engine

    A shallow embedding of the slot-filling core of the repository:

    - [app/services/voice_service.py]: the keyword classifier
      ([_fallback_intent_classification]) and the two pattern recognizers
      ([extract_phone_number], [extract_email]);
    - [app/services/financial_service.py]: the field extractor, the priority
      rule, the checklist, the record finalizer and the session store access;
    - [app/main.py]: the turn handler [process_financial_request].

    How the Python is rendered:

    - text is a [string] of 7-bit ASCII: [str.lower], [str.title],
      [str.split], [\s], [\w] and [\b] are given on ASCII characters, and a
      character above 127 is a caseless symbol;
    - a [dict] of collected fields is a [gmap string string]; [d.get(k)] is
      [d !! k], and a value is false when it is absent or empty;
    - the two regular expressions are terms of a small pattern language run
      by a backtracking matcher with the priorities of [re];
    - the database is a record of its two tables, passed in and returned;
      [datetime.now()] is an argument; a failing commit is not modelled;
    - [json] and the language model are parameters ([Json], [OpenAI]); a
      raised exception is [None]. *)

From Stdlib Require Import ZArith NArith QArith Ascii.
From stdpp Require Import gmap strings list fin_maps.

Local Open Scope stdpp_scope.

(** ** Characters *)

Module Char.

Definition code (c : ascii) : N := N_of_ascii c.

Definition between (lo hi : N) (c : ascii) : bool :=
  ((lo <=? code c) && (code c <=? hi))%N.

(** [0-9] *)
Definition is_digit : ascii → bool := between 48 57.
(** [A-Z] and [a-z] *)
Definition is_upper : ascii → bool := between 65 90.
Definition is_lower : ascii → bool := between 97 122.
Definition is_alpha (c : ascii) : bool := is_upper c || is_lower c.

(** [str.isspace] on ASCII, which is also the class [\s] of a [str]
    pattern: TAB, LF, VT, FF, CR, the separators FS, GS, RS, US and the
    space. *)
Definition isspace (c : ascii) : bool := between 9 13 c || between 28 32 c.

(** [\w] on ASCII: letters, digits and the underscore. *)
Definition is_word (c : ascii) : bool :=
  is_alpha c || is_digit c || Ascii.eqb c "_".

Definition lower (c : ascii) : ascii :=
  if is_upper c then ascii_of_N (code c + 32) else c.

Definition upper (c : ascii) : ascii :=
  if is_lower c then ascii_of_N (code c - 32) else c.

Definition eq (a : ascii) (c : ascii) : bool := Ascii.eqb c a.

End Char.

(** ** Python [str] operations *)

Module Str.

Definition is_empty (s : string) : bool :=
  match s with EmptyString => true | String _ _ => false end.

(** [s.lower()] *)
Fixpoint lower (s : string) : string :=
  match s with
  | EmptyString => EmptyString
  | String c s' => String (Char.lower c) (lower s')
  end.

(** [s.startswith(p)] *)
Fixpoint startswith (p s : string) : bool :=
  match p, s with
  | EmptyString, _ => true
  | String a p', String b s' => Ascii.eqb a b && startswith p' s'
  | String _ _, EmptyString => false
  end.

(** [p in s] *)
Fixpoint contains (p s : string) : bool :=
  startswith p s ||
  match s with
  | EmptyString => false
  | String _ s' => contains p s'
  end.

(** [keyword] occurs in [s] in some mix of upper and lower case. *)
Definition mentions (keyword s : string) : Prop :=
  ∃ pre mid post, s = pre +:+ mid +:+ post ∧ lower mid = keyword.

(** [any(k in s for k in ks)] *)
Definition contains_any (ks : list string) (s : string) : bool :=
  existsb (fun k => contains k s) ks.

(** [s.split()]: maximal runs of non-whitespace characters.  [cur] is the
    word being read, if any. *)
Fixpoint split_from (cur : option string) (s : string) : list string :=
  match s with
  | EmptyString => match cur with Some w => [w] | None => [] end
  | String c s' =>
      if Char.isspace c then
        match cur with
        | Some w => w :: split_from None s'
        | None => split_from None s'
        end
      else
        split_from (Some (default EmptyString cur +:+ String c EmptyString)) s'
  end.

Definition split (s : string) : list string := split_from None s.

(** [sep.join(ws)] *)
Fixpoint join (sep : string) (ws : list string) : string :=
  match ws with
  | [] => EmptyString
  | [w] => w
  | w :: ws' => w +:+ sep +:+ join sep ws'
  end.

(** [s.title()]: a cased character is upper-cased when the previous
    character is uncased and lower-cased otherwise. *)
Fixpoint title_from (previous_is_cased : bool) (s : string) : string :=
  match s with
  | EmptyString => EmptyString
  | String c s' =>
      String (if previous_is_cased then Char.lower c else Char.upper c)
             (title_from (Char.is_alpha c) s')
  end.

Definition title (s : string) : string := title_from false s.

Fixpoint all (p : ascii → bool) (s : string) : bool :=
  match s with
  | EmptyString => true
  | String c s' => p c && all p s'
  end.

Fixpoint filter (p : ascii → bool) (s : string) : string :=
  match s with
  | EmptyString => EmptyString
  | String c s' => if p c then String c (filter p s') else filter p s'
  end.

Fixpoint take (n : nat) (s : string) : string :=
  match n, s with
  | S n', String c s' => String c (take n' s')
  | _, _ => EmptyString
  end.

(** The character before the position reached after reading [s], when [prev]
  is the character before [s]. *)
Fixpoint last_char (prev : option ascii) (s : string) : option ascii :=
  match s with
  | EmptyString => prev
  | String c s' => last_char (Some c) s'
  end.

Definition first_char (s : string) : option ascii :=
  match s with EmptyString => None | String c _ => Some c end.

End Str.

(** ** Regular expressions, as Python's [re] runs the two patterns

    The fragment of [re] syntax the repository uses: character classes under
    a greedy counted repetition, [\b], concatenation, the greedy optional
    [?] and numbered groups.  [exec] is the backtracking matcher with
    Python's priorities (a greedy repetition tries the longest run first and
    gives characters back one at a time; [r?] tries [r] before skipping it),
    written in continuation-passing style; [search] is [re.search], the match
    at the leftmost starting position. *)

Module Regex.

Inductive regex : Type :=
| Chars (cls : ascii → bool) (lo : nat) (hi : option nat)
| WordBoundary
| Cat (r1 r2 : regex)
| Maybe (r : regex)
| Group (n : nat) (r : regex).

Definition captures : Type := list (nat * string).

(** A match object: group 0 and the numbered groups that took part. *)
Record Match : Type := { whole : string; groups : captures }.

Definition below (n : nat) (hi : option nat) : bool :=
  match hi with Some h => n <? h | None => true end.

(** [cls{lo,hi}] after [n] characters were taken: take one more if allowed,
    and fall back to stopping here when the rest of the pattern fails. *)
Fixpoint rep {A : Type} (cls : ascii → bool) (lo : nat) (hi : option nat) (n : nat)
    (prev : option ascii) (s : string)
    (k : option ascii → string → option A) : option A :=
  let stop := if lo <=? n then k prev s else None in
  if below n hi then
    match s with
    | String c s' =>
        if cls c then
          match rep cls lo hi (S n) (Some c) s' k with
          | Some a => Some a
          | None => stop
          end
        else stop
    | EmptyString => stop
    end
  else stop.

Definition is_word_at (c : option ascii) : bool :=
  match c with Some c => Char.is_word c | None => false end.

(** [\b]: exactly one of the characters around the position is a word
    character (the ends of the text count as non-word). *)
Definition at_boundary (prev : option ascii) (s : string) : bool :=
  xorb (is_word_at prev) (is_word_at (Str.first_char s)).

(** The text read between the position with remainder [s] and the later
    position with remainder [s']. *)
Definition span (s s' : string) : string :=
  Str.take (String.length s - String.length s') s.

Fixpoint exec {A : Type} (r : regex) (caps : captures) (prev : option ascii) (s : string)
    (k : captures → option ascii → string → option A) : option A :=
  match r with
  | Chars cls lo hi => rep cls lo hi 0 prev s (k caps)
  | WordBoundary => if at_boundary prev s then k caps prev s else None
  | Cat r1 r2 => exec r1 caps prev s (fun caps' prev' s' => exec r2 caps' prev' s' k)
  | Maybe r1 =>
      match exec r1 caps prev s k with
      | Some a => Some a
      | None => k caps prev s
      end
  | Group n r1 =>
      exec r1 caps prev s (fun caps' prev' s' => k ((n, span s s') :: caps') prev' s')
  end.

(** [re.match] at one position. *)
Definition match_here (r : regex) (prev : option ascii) (s : string) : option Match :=
  exec r [] prev s (fun caps _ s' => Some {| whole := span s s'; groups := caps |}).

(** [re.search] from the position with remainder [s]. *)
Fixpoint search_from (r : regex) (prev : option ascii) (s : string) : option Match :=
  match match_here r prev s with
  | Some m => Some m
  | None =>
      match s with
      | String c s' => search_from r (Some c) s'
      | EmptyString => None
      end
  end.

Definition search (r : regex) (s : string) : option Match := search_from r None s.

(** [m.group(n)], [None] for a group that did not take part. *)
Fixpoint lookup_group (n : nat) (caps : captures) : option string :=
  match caps with
  | [] => None
  | (i, g) :: caps' => if Nat.eqb i n then Some g else lookup_group n caps'
  end.

Definition group (m : Match) (n : nat) : option string :=
  match n with 0 => Some (whole m) | _ => lookup_group n (groups m) end.

(** How an f-string prints [m.group(n)]. *)
Definition format_group (m : Match) (n : nat) : string :=
  default "None" (group m n).

(** What the matcher looks for, stated without the search: [matches r prev m
    rest caps] holds when [r] can read exactly [m] at a position preceded by
    the character [prev] and followed by [rest], with the groups [caps] taking
    part (latest first). *)
Inductive matches : regex → option ascii → string → string → captures → Prop :=
| matches_chars cls lo hi prev m rest :
    Str.all cls m = true →
    lo ≤ String.length m →
    (∀ h, hi = Some h → String.length m ≤ h) →
    matches (Chars cls lo hi) prev m rest []
| matches_boundary prev rest :
    at_boundary prev rest = true →
    matches WordBoundary prev EmptyString rest []
| matches_cat r1 r2 prev m1 m2 rest caps1 caps2 :
    matches r1 prev m1 (m2 +:+ rest) caps1 →
    matches r2 (Str.last_char prev m1) m2 rest caps2 →
    matches (Cat r1 r2) prev (m1 +:+ m2) rest (caps2 ++ caps1)
| matches_skip r prev rest :
    matches (Maybe r) prev EmptyString rest []
| matches_take r prev m rest caps :
    matches r prev m rest caps →
    matches (Maybe r) prev m rest caps
| matches_group n r prev m rest caps :
    matches r prev m rest caps →
    matches (Group n r) prev m rest ((n, m) :: caps).

Definition lit (c : ascii) : regex := Chars (Char.eq c) 1 (Some 1).
Definition one (cls : ascii → bool) : regex := Chars cls 1 (Some 1).
Definition exactly (n : nat) (cls : ascii → bool) : regex := Chars cls n (Some n).
Definition at_least (n : nat) (cls : ascii → bool) : regex := Chars cls n None.

End Regex.

Declare Scope regex_scope.
Delimit Scope regex_scope with re.
Infix ">>" := Regex.Cat (at level 60, right associativity) : regex_scope.

(** ** app/services/voice_service.py *)

Module VoiceService.
Import Regex.

(** [[\s-]] *)
Definition separator (c : ascii) : bool := Char.isspace c || Char.eq "-" c.

(** [r'(\+?1?[\s-]?)?\(?([0-9]{3})\)?[\s-]?([0-9]{3})[\s-]?([0-9]{4})'] *)
Definition phone_pattern : regex :=
  ( Maybe (Group 1 (Maybe (lit "+") >> Maybe (lit "1") >> Maybe (one separator)))
    >> Maybe (lit "(")
    >> Group 2 (exactly 3 Char.is_digit)
    >> Maybe (lit ")")
    >> Maybe (one separator)
    >> Group 3 (exactly 3 Char.is_digit)
    >> Maybe (one separator)
    >> Group 4 (exactly 4 Char.is_digit) )%re.

Definition extract_phone_number (text : string) : option string :=
  match search phone_pattern text with
  | Some m => Some ("+1" +:+ format_group m 2 +:+ format_group m 3 +:+ format_group m 4)
  | None => None
  end.

Definition is_alnum (c : ascii) : bool := Char.is_alpha c || Char.is_digit c.

(** [[A-Za-z0-9._%+-]] *)
Definition local_part (c : ascii) : bool :=
  is_alnum c || Char.eq "." c || Char.eq "_" c || Char.eq "%" c
  || Char.eq "+" c || Char.eq "-" c.

(** [[A-Za-z0-9.-]] *)
Definition domain_part (c : ascii) : bool :=
  is_alnum c || Char.eq "." c || Char.eq "-" c.

(** [[A-Z|a-z]]: inside a class the bar is a literal character. *)
Definition tld_part (c : ascii) : bool := Char.is_alpha c || Char.eq "|" c.

(** [r'\b[A-Za-z0-9._%+-]+@[A-Za-z0-9.-]+\.[A-Z|a-z]{2,}\b'] *)
Definition email_pattern : regex :=
  ( WordBoundary
    >> at_least 1 local_part
    >> lit "@"
    >> at_least 1 domain_part
    >> lit "."
    >> at_least 2 tld_part
    >> WordBoundary )%re.

Definition extract_email (text : string) : option string :=
  match search email_pattern text with
  | Some m => group m 0
  | None => None
  end.

(** The result dict of a classification: [priority] is absent outside the
    financial context; the confidence literals 0.8 and 0.5 are kept as
    rationals. *)
Record Classification : Type := {
  intent : string;
  priority : option string;
  confidence : Q;
}.

Definition restaurant_reservation_words : list string :=
  ["reservation"; "book"; "table"; "reserve"].
Definition restaurant_menu_words : list string :=
  ["menu"; "food"; "dish"; "price"; "cost"].
Definition restaurant_hours_words : list string :=
  ["hours"; "open"; "close"; "location"; "address"].
Definition financial_urgent_words : list string :=
  ["fraud"; "stolen"; "unauthorized"; "locked"].
Definition financial_account_words : list string :=
  ["account"; "balance"; "statement"].
Definition financial_loan_words : list string :=
  ["loan"; "credit"; "mortgage"].

Definition _fallback_intent_classification (user_speech context : string) : Classification :=
  let speech_lower := Str.lower user_speech in
  if String.eqb context "restaurant" then
    if Str.contains_any restaurant_reservation_words speech_lower then
      {| intent := "RESERVATION"; priority := None; confidence := 8 # 10 |}
    else if Str.contains_any restaurant_menu_words speech_lower then
      {| intent := "MENU_INQUIRY"; priority := None; confidence := 8 # 10 |}
    else if Str.contains_any restaurant_hours_words speech_lower then
      {| intent := "HOURS_LOCATION"; priority := None; confidence := 8 # 10 |}
    else
      {| intent := "OTHER"; priority := None; confidence := 5 # 10 |}
  else if String.eqb context "financial" then
    if Str.contains_any financial_urgent_words speech_lower then
      {| intent := "ACCOUNT_INQUIRY"; priority := Some "URGENT"; confidence := 8 # 10 |}
    else if Str.contains_any financial_account_words speech_lower then
      {| intent := "ACCOUNT_INQUIRY"; priority := Some "MEDIUM"; confidence := 8 # 10 |}
    else if Str.contains_any financial_loan_words speech_lower then
      {| intent := "LOAN_APPLICATION"; priority := Some "MEDIUM"; confidence := 8 # 10 |}
    else
      {| intent := "GENERAL"; priority := Some "MEDIUM"; confidence := 5 # 10 |}
  else
    {| intent := "OTHER"; priority := None; confidence := 5 # 10 |}.

End VoiceService.

(** ** The libraries and services around the core

    [json] and the hosted language model are not code of the repository: the
    development is parametric in them.  [json_loads] answers [None] where
    [json.loads] raises; the texts it accepts are taken to be objects with
    string values, which is what [update_session_data] writes.
    [openai_fields] is the parsed completion of [_extract_with_ai], [None]
    when the call or the parsing raises. *)

Class Json : Type := {
  json_loads : string → option (gmap string string);
  json_dumps : gmap string string → string;
}.

Class OpenAI : Type := {
  openai_enabled : bool;
  openai_fields : string → gmap string string → option (gmap string string);
}.

(** ** app/models/database.py *)

Module Database.

Inductive InquiryPriority : Type := LOW | MEDIUM | HIGH | URGENT.

(** The member names of the enum, the keys of [priority_map]. *)
Definition member_name (p : InquiryPriority) : string :=
  match p with
  | LOW => "LOW" | MEDIUM => "MEDIUM" | HIGH => "HIGH" | URGENT => "URGENT"
  end.

(** [InquiryPriority.value] *)
Definition value (p : InquiryPriority) : string :=
  match p with
  | LOW => "low" | MEDIUM => "medium" | HIGH => "high" | URGENT => "urgent"
  end.

(** A row of [financial_inquiries], with the columns [create_inquiry] sets
    and the generated primary key. *)
Record FinancialInquiry : Type := {
  id : nat;
  customer_name : string;
  phone : string;
  email : option string;
  reason : string;
  priority : InquiryPriority;
  call_time : Z;
}.

(** A row of [call_sessions]; the unique column [call_sid] is the key of the
    table. *)
Record CallSession : Type := {
  call_type : string;
  session_data : option string;
  updated_at : Z;
}.

Record DB : Type := {
  call_sessions : gmap string CallSession;
  financial_inquiries : list FinancialInquiry;
}.

Definition empty_db : DB :=
  {| call_sessions := ∅; financial_inquiries := [] |}.

(** The autoincremented primary key of the next inquiry. *)
Definition next_id (rows : list FinancialInquiry) : nat :=
  S (foldr Nat.max 0 (id <$> rows)).

End Database.

(** ** app/services/financial_service.py *)

Module FinancialService.
Import Database.

(** Truth value of [d.get(key)]: an absent key gives [None], and [None] and
    the empty string are false. *)
Definition truthy (v : option string) : bool :=
  match v with
  | Some s => negb (Str.is_empty s)
  | None => false
  end.

Definition name_cues : list string := ["my name is"; "i am"; "this is"].

(** The [for i, word in enumerate(words)] loop of the name recognizer, from
    index [i]: one past the first word that is "is" or "am", or -1. *)
Fixpoint name_start_from (i : Z) (words : list string) : Z :=
  match words with
  | [] => -1
  | word :: rest =>
      if bool_decide (Str.lower word ∈ ["is"; "am"]) then (i + 1)%Z
      else name_start_from (i + 1)%Z rest
  end.

Definition urgent_keywords : list string :=
  ["fraud"; "stolen"; "unauthorized"; "locked"; "emergency"; "hack"].
Definition high_keywords : list string :=
  ["payment"; "due"; "deadline"; "billing"; "dispute"; "access"; "urgent"].

Definition _determine_priority (text : string) : string :=
  let text_lower := Str.lower text in
  if Str.contains_any urgent_keywords text_lower then "URGENT"
  else if Str.contains_any high_keywords text_lower then "HIGH"
  else "MEDIUM".

Definition _extract_with_fallback (user_input : string)
    (existing_data : gmap string string) : gmap string string :=
  let updated_data := existing_data in
  (* Extract name *)
  let updated_data :=
    if negb (truthy (existing_data !! "name"))
       && Str.contains_any name_cues (Str.lower user_input)
    then
      let words := Str.split user_input in
      let name_start := name_start_from 0 words in
      if ((0 <? name_start) && (name_start <? Z.of_nat (length words)))%Z then
        let potential_name :=
          Str.join " " (take 2 (drop (Z.to_nat name_start) words)) in
        <["name" := Str.title potential_name]> updated_data
      else updated_data
    else updated_data in
  (* Extract phone number *)
  let phone := VoiceService.extract_phone_number user_input in
  let updated_data :=
    match phone with
    | Some p => if truthy phone then <["phone" := p]> updated_data else updated_data
    | None => updated_data
    end in
  (* Extract email *)
  let email := VoiceService.extract_email user_input in
  let updated_data :=
    match email with
    | Some e => if truthy email then <["email" := e]> updated_data else updated_data
    | None => updated_data
    end in
  (* Store reason if not extracted yet *)
  let updated_data :=
    if negb (truthy (existing_data !! "reason"))
    then <["reason" := user_input]> updated_data
    else updated_data in
  (* Determine priority *)
  let priority := _determine_priority user_input in
  <["priority" := priority]> updated_data.

(** [existing_data.copy()] updated with the parsed completion; any exception
    falls back to the pattern matcher. *)
Definition _extract_with_ai `{OpenAI} (user_input : string)
    (existing_data : gmap string string) : gmap string string :=
  match openai_fields user_input existing_data with
  | Some result => result ∪ existing_data
  | None => _extract_with_fallback user_input existing_data
  end.

Definition extract_customer_info `{OpenAI} (user_input : string)
    (existing_data : gmap string string) : gmap string string :=
  if openai_enabled then _extract_with_ai user_input existing_data
  else _extract_with_fallback user_input existing_data.

Definition questions : gmap string string :=
  list_to_map [
    ("name", "I'll be happy to help you. First, could you tell me your full name?");
    ("phone", "Thank you! And what's the best phone number for our team to reach you at?");
    ("reason", "Perfect! Now, could you briefly tell me what you're calling about today?");
    ("email", "Would you also like to provide an email address for follow-up?")
  ].

Definition get_next_question (missing_field : string) : string :=
  default "I need a bit more information. Could you repeat that?"
          (questions !! missing_field).

Definition priority_map : gmap string InquiryPriority :=
  list_to_map [("URGENT", URGENT); ("HIGH", HIGH); ("MEDIUM", MEDIUM); ("LOW", LOW)].

(** The priority enum of the record. *)
Definition inquiry_priority (info : gmap string string) : InquiryPriority :=
  default MEDIUM (priority_map !! default "MEDIUM" (info !! "priority")).

(** [None] stands for the [KeyError] of [info['name']], [info['phone']] or
    [info['reason']]; the row is added with the next primary key. *)
Definition create_inquiry (db : DB) (info : gmap string string) (now : Z)
    : option (DB * FinancialInquiry) :=
  let priority := inquiry_priority info in
  name ← info !! "name";
  phone ← info !! "phone";
  reason ← info !! "reason";
  let inquiry :=
    {| id := next_id (financial_inquiries db);
       customer_name := name;
       phone := phone;
       email := info !! "email";
       reason := reason;
       priority := priority;
       call_time := now |} in
  Some ({| call_sessions := call_sessions db;
           financial_inquiries := financial_inquiries db ++ [inquiry] |},
        inquiry).

Definition get_session_data `{Json} (db : DB) (call_sid : string) : gmap string string :=
  match call_sessions db !! call_sid with
  | Some session =>
      if truthy (session_data session) then
        match json_loads (default EmptyString (session_data session)) with
        | Some data => data
        | None => ∅
        end
      else ∅
  | None => ∅
  end.

Definition update_session_data `{Json} (db : DB) (call_sid : string)
    (data : gmap string string) (now : Z) : DB :=
  let session :=
    match call_sessions db !! call_sid with
    | None =>
        {| call_type := "financial";
           session_data := Some (json_dumps data);
           updated_at := now |}
    | Some session =>
        {| call_type := call_type session;
           session_data := Some (json_dumps data);
           updated_at := now |}
    end in
  {| call_sessions := <[call_sid := session]> (call_sessions db);
     financial_inquiries := financial_inquiries db |}.

Definition required_fields : list string := ["name"; "phone"; "reason"].

Definition missing_fields (customer_info : gmap string string) : list string :=
  filter (fun field => truthy (customer_info !! field) = false) required_fields.

(** [field] is the first entry of the checklist that [customer_info] lacks. *)
Definition earliest_missing (customer_info : gmap string string) (field : string) : Prop :=
  ∃ before after,
    required_fields = before ++ field :: after
    ∧ truthy (customer_info !! field) = false
    ∧ ∀ f, f ∈ before → truthy (customer_info !! f) = true.

Definition thank_you (customer_name : string) : string :=
  "Thank you, " +:+ customer_name +:+
  "! I've recorded your information and our team will contact you within 24 hours. Have a great day!".

Definition technical_difficulty : string :=
  "I apologize for the technical difficulty. Please call back during business hours and our team will be happy to assist you.".

(** One turn of the collection flow: the new database, the reply and the
    completion flag.  [send_staff_notification] only logs and sends messages
    and swallows its own exceptions, so it leaves no trace here. *)
Definition handle_after_hours_inquiry `{Json} `{OpenAI} (db : DB)
    (user_input call_sid : string) (now : Z) : DB * (string * bool) :=
  (* Get or create session *)
  let session_data := get_session_data db call_sid in
  (* Extract customer information *)
  let customer_info := extract_customer_info user_input session_data in
  (* Update session *)
  let db := update_session_data db call_sid customer_info now in
  (* Check if we have all required information *)
  match missing_fields customer_info with
  | field :: _ =>
      (* Ask for missing information *)
      (db, (get_next_question field, false))
  | [] =>
      (* All information collected, create inquiry *)
      match create_inquiry db customer_info now with
      | Some (db, inquiry) => (db, (thank_you (customer_name inquiry), true))
      | None => (db, (technical_difficulty, true))
      end
  end.

(** The turns of one call, oldest first: each is an utterance and the time
    of its request. *)
Definition run_call `{Json} `{OpenAI} (db : DB) (call_sid : string)
    (turns : list (string * Z)) : DB :=
  foldl (fun db turn => (handle_after_hours_inquiry db turn.1 call_sid turn.2).1) db turns.

(** The field set stored for a call, as the next turn will load it. *)
Definition session_field `{Json} (db : DB) (call_sid field : string) : option string :=
  get_session_data db call_sid !! field.

End FinancialService.

(** ** app/main.py *)

Module Main.
Import Database.

(** The TwiML verbs of a reply, in order. *)
Inductive Verb : Type :=
| Say (message : string) (voice : option string)
| Gather (input action method : string).

Definition did_not_catch : string :=
  "I'm sorry, I didn't catch that. Could you please repeat that?".

Definition gather_more : Verb := Gather "speech" "/voice/financial/process" "POST".

(** [POST /voice/financial/process]: the form fields [SpeechResult] and
    [CallSid] are optional.  The service catches its own exceptions, so the
    outer [except] of the route is not reached. *)
Definition process_financial_request `{Json} `{OpenAI} (db : DB)
    (SpeechResult CallSid : option string) (now : Z) : DB * list Verb :=
  if negb (FinancialService.truthy SpeechResult) || negb (FinancialService.truthy CallSid)
  then (db, [Say did_not_catch None; gather_more])
  else
    let '(db, (reply, is_complete)) :=
      FinancialService.handle_after_hours_inquiry db
        (default EmptyString SpeechResult) (default EmptyString CallSid) now in
    (db, Say reply (Some "Polly.Joanna") :: (if is_complete then [] else [gather_more])).

End Main.

(** ** A reference [json] for objects of strings

    [dumps] prints as [json.dumps] does with its default separators and
    [ensure_ascii]; [loads] reads an object whose values are strings, with
    the whitespace and the escapes of JSON, and answers [None] on any other
    text.  It instantiates [Json] where the model is run on concrete calls. *)

Module PyJson.

Definition quote : ascii := "034".
Definition backslash : ascii := "092".
Definition str1 (c : ascii) : string := String c EmptyString.

Definition hex_digit (n : N) : ascii :=
  if (n <? 10)%N then ascii_of_N (48 + n) else ascii_of_N (87 + n).

Definition escape_char (c : ascii) : string :=
  if Ascii.eqb c quote then String backslash (str1 quote)
  else if Ascii.eqb c backslash then String backslash (str1 backslash)
  else if Ascii.eqb c "010" then String backslash "n"
  else if Ascii.eqb c "013" then String backslash "r"
  else if Ascii.eqb c "009" then String backslash "t"
  else if Ascii.eqb c "008" then String backslash "b"
  else if Ascii.eqb c "012" then String backslash "f"
  else if Char.between 32 126 c then str1 c
  else String backslash ("u00" +:+ String (hex_digit (Char.code c / 16))
                                     (str1 (hex_digit (Char.code c mod 16)))).

Fixpoint escape (s : string) : string :=
  match s with
  | EmptyString => EmptyString
  | String c s' => escape_char c +:+ escape s'
  end.

Definition encode_string (s : string) : string :=
  String quote (escape s +:+ str1 quote).

Definition encode_item (kv : string * string) : string :=
  encode_string kv.1 +:+ ": " +:+ encode_string kv.2.

Definition dumps (d : gmap string string) : string :=
  "{" +:+ Str.join ", " (encode_item <$> map_to_list d) +:+ "}".

Definition hex_value (c : ascii) : option N :=
  if Char.is_digit c then Some (Char.code c - 48)%N
  else if Char.between 97 102 c then Some (Char.code c - 87)%N
  else if Char.between 65 70 c then Some (Char.code c - 55)%N
  else None.

(** [\uXXXX] for a code point below 256. *)
Definition unicode_escape (h1 h2 h3 h4 : ascii) : option ascii :=
  a ← hex_value h1; b ← hex_value h2; c ← hex_value h3; d ← hex_value h4;
  if ((a =? 0) && (b =? 0))%N then Some (ascii_of_N (16 * c + d)) else None.

(** The body of a string literal, after its opening quote: the decoded
    string and the text after the closing quote. *)
Fixpoint decode_string (s : string) : option (string * string) :=
  match s with
  | EmptyString => None
  | String c s1 =>
      if Ascii.eqb c quote then Some (EmptyString, s1)
      else if Ascii.eqb c backslash then
        match s1 with
        | EmptyString => None
        | String e s2 =>
            let continue (c' : ascii) :=
              '(body, rest) ← decode_string s2; Some (String c' body, rest) in
            if Ascii.eqb e quote then continue quote
            else if Ascii.eqb e backslash then continue backslash
            else if Ascii.eqb e "/" then continue "/"%char
            else if Ascii.eqb e "n" then continue "010"%char
            else if Ascii.eqb e "r" then continue "013"%char
            else if Ascii.eqb e "t" then continue "009"%char
            else if Ascii.eqb e "b" then continue "008"%char
            else if Ascii.eqb e "f" then continue "012"%char
            else if Ascii.eqb e "u" then
              match s2 with
              | String h1 (String h2 (String h3 (String h4 s6))) =>
                  c' ← unicode_escape h1 h2 h3 h4;
                  '(body, rest) ← decode_string s6;
                  Some (String c' body, rest)
              | _ => None
              end
            else None
        end
      else if Char.between 0 31 c then None
      else '(body, rest) ← decode_string s1; Some (String c body, rest)
  end.

Definition is_ws (c : ascii) : bool :=
  Ascii.eqb c " " || Ascii.eqb c "009" || Ascii.eqb c "010" || Ascii.eqb c "013".

Fixpoint skip_ws (s : string) : string :=
  match s with
  | String c s' => if is_ws c then skip_ws s' else s
  | EmptyString => s
  end.

(** A quoted string at the head of [s], after whitespace. *)
Definition read_string (s : string) : option (string * string) :=
  match skip_ws s with
  | String c s' => if Ascii.eqb c quote then decode_string s' else None
  | EmptyString => None
  end.

(** The members of an object after its opening brace and first whitespace,
    added to [acc]; a repeated key keeps its last value. *)
Fixpoint read_members (fuel : nat) (acc : gmap string string) (s : string)
    : option (gmap string string) :=
  match fuel with
  | O => None
  | S fuel' =>
      '(k, s1) ← read_string s;
      match skip_ws s1 with
      | String ":" s2 =>
          '(v, s3) ← read_string s2;
          match skip_ws s3 with
          | String "," s4 => read_members fuel' (<[k := v]> acc) s4
          | String "}" s4 =>
              if Str.is_empty (skip_ws s4) then Some (<[k := v]> acc) else None
          | _ => None
          end
      | _ => None
      end
  end.

Definition loads (text : string) : option (gmap string string) :=
  match skip_ws text with
  | String "{" s1 =>
      match skip_ws s1 with
      | String "}" s2 => if Str.is_empty (skip_ws s2) then Some ∅ else None
      | s2 => read_members (String.length text) ∅ s2
      end
  | _ => None
  end.

#[local] Instance python_json : Json := {| json_loads := loads; json_dumps := dumps |}.

(** The configuration without an API key: [openai_enabled] is false. *)
#[local] Instance demo_mode : OpenAI :=
  {| openai_enabled := false; openai_fields := fun _ _ => None |}.

End PyJson.

(** ** config/settings.py *)

Module Config.

(** The settings the modelled code reads, after [os.getenv] and [int]. *)
Record Settings : Type := {
  TWILIO_ACCOUNT_SID : string;
  TWILIO_AUTH_TOKEN : string;
  TWILIO_PHONE_NUMBER : string;
  OPENAI_API_KEY : string;
  RESTAURANT_NAME : string;
  RESTAURANT_PHONE : string;
  CREDIT_UNION_NAME : string;
  BUSINESS_HOURS_START : Z;
  BUSINESS_HOURS_END : Z;
  ONCALL_STAFF_PHONE : string;
}.

(** The values when the environment sets none of the variables. *)
Definition defaults : Settings :=
  {| TWILIO_ACCOUNT_SID := EmptyString;
     TWILIO_AUTH_TOKEN := EmptyString;
     TWILIO_PHONE_NUMBER := EmptyString;
     OPENAI_API_KEY := EmptyString;
     RESTAURANT_NAME := "Restaurant";
     RESTAURANT_PHONE := EmptyString;
     CREDIT_UNION_NAME := "Credit Union";
     BUSINESS_HOURS_START := 9;
     BUSINESS_HOURS_END := 17;
     ONCALL_STAFF_PHONE := EmptyString |}.

(** Truth value of a [str]. *)
Definition nonempty (s : string) : bool := negb (Str.is_empty s).

(** The test of [VoiceService.__init__] and [NotificationService.__init__]
    before a Twilio client is built: both credentials set, neither the demo
    value. *)
Definition real_twilio_credentials (settings : Settings) : bool :=
  nonempty (TWILIO_ACCOUNT_SID settings)
  && nonempty (TWILIO_AUTH_TOKEN settings)
  && negb (String.eqb (TWILIO_ACCOUNT_SID settings) "demo_account_sid")
  && negb (String.eqb (TWILIO_AUTH_TOKEN settings) "demo_auth_token").

(** [self.twilio_client] is set: [client_built] is false when [Client(...)]
    raises. *)
Definition twilio_client (settings : Settings) (client_built : bool) : bool :=
  real_twilio_credentials settings && client_built.

(** [self.openai_enabled] after [VoiceService.__init__]: [imported] is false
    when [import openai] raises. *)
Definition init_openai_enabled (settings : Settings) (imported : bool) : bool :=
  nonempty (OPENAI_API_KEY settings)
  && negb (String.eqb (OPENAI_API_KEY settings) "demo_openai_key")
  && imported.

End Config.

(** ** app/services/voice_service.py, the replies *)

(** The chat completions of [classify_intent] and [_generate_ai_response]:
    [classification] is what [json.loads] gives for a completion (a dict),
    [classification_intent] its [get("intent")] and
    [classification_priority] its [get("priority")]; an oracle answers [None]
    when the call or the parsing raises.  The switch is [openai_enabled]. *)
Class ChatModel : Type := {
  classification : Type;
  classify_completion : string → string → option classification;
  classification_intent : classification → option string;
  classification_priority : classification → option string;
  reply_completion : option string → option string → string → string → option string;
}.

Module Replies.
Import VoiceService.

(** The dict a classification hands on: the one of the keyword rule or the
    one of the model. *)
Definition intent_data `{ChatModel} : Type := (Classification + classification)%type.

(** [intent_data.get("intent")] and [intent_data.get("priority")] *)
Definition get_intent `{ChatModel} (d : intent_data) : option string :=
  match d with
  | inl c => Some (intent c)
  | inr r => classification_intent r
  end.

Definition get_priority `{ChatModel} (d : intent_data) : option string :=
  match d with
  | inl c => priority c
  | inr r => classification_priority r
  end.

Definition known_context (context : string) : bool :=
  String.eqb context "restaurant" || String.eqb context "financial".

(** With the model switched on, the prompt is bound for the two known
    contexts only: any other context raises inside the [try] and ends in the
    keyword rule, as a failing call does. *)
Definition classify_intent `{OpenAI} `{ChatModel} (user_speech context : string)
    : intent_data :=
  if negb openai_enabled then inl (_fallback_intent_classification user_speech context)
  else if known_context context then
    match classify_completion user_speech context with
    | Some result => inr result
    | None => inl (_fallback_intent_classification user_speech context)
    end
  else inl (_fallback_intent_classification user_speech context).

Definition restaurant_responses : gmap string string :=
  list_to_map [
    ("RESERVATION", "I'd be happy to help you with a reservation. What date and time would you like to dine with us?");
    ("MENU_INQUIRY", "I can help you with information about our menu. What would you like to know about our dishes?");
    ("HOURS_LOCATION", "We're open daily from 11 AM to 10 PM. You can find us at [Your Address]. How else can I help?");
    ("OTHER", "I'm here to help with reservations, menu questions, or restaurant information. What can I assist you with?")
  ].

Definition financial_responses : gmap string string :=
  list_to_map [
    ("ACCOUNT_INQUIRY", "I understand you have an account question. I'll collect your information so our team can help you first thing tomorrow.");
    ("LOAN_APPLICATION", "I'll be happy to help with your loan inquiry. Let me get your contact information for our lending team.");
    ("TECHNICAL_ISSUE", "I'll make sure our technical team gets your information to resolve this issue quickly.");
    ("GENERAL", "I'll collect your information so our team can assist you with your inquiry.")
  ].

(** [responses.get(intent, responses.get("OTHER", "How can I help you today?"))] *)
Definition pick_response (responses : gmap string string) (intent : string) : string :=
  default (default "How can I help you today?" (responses !! "OTHER")) (responses !! intent).

(** [intent] is [intent_data.get("intent")]. *)
Definition _generate_fallback_response (intent : option string) (context : string) : string :=
  let intent := default "OTHER" intent in
  if String.eqb context "restaurant" then pick_response restaurant_responses intent
  else if String.eqb context "financial" then pick_response financial_responses intent
  else "Thank you for calling. How can I help you today?".

Definition _generate_ai_response `{ChatModel} (d : intent_data)
    (user_input context : string) : string :=
  if known_context context then
    match reply_completion (get_intent d) (get_priority d) user_input context with
    | Some content => content
    | None => _generate_fallback_response (get_intent d) context
    end
  else _generate_fallback_response (get_intent d) context.

Definition generate_smart_response `{OpenAI} `{ChatModel} (d : intent_data)
    (user_input context : string) : string :=
  if openai_enabled then _generate_ai_response d user_input context
  else _generate_fallback_response (get_intent d) context.

End Replies.

(** ** app/services/notification_service.py *)

Module NotificationService.
Import Database Config.

(** A message handed to [twilio_client.messages.create]. *)
Record Sms : Type := { to : string; from_ : string; body : string }.

(** The messages handed to Twilio; a failing [create] is logged and
    swallowed. *)
Definition send_sms (settings : Settings) (client : bool) (to_phone message : string)
    : list Sms :=
  if negb client then []
  else [ {| to := to_phone; from_ := TWILIO_PHONE_NUMBER settings; body := message |} ].

(** [inquiry.reason[:100]] is [Str.take 100]. *)
Definition urgent_message (inquiry : FinancialInquiry) : string :=
  "URGENT: New " +:+ value (priority inquiry) +:+ " priority inquiry from "
  +:+ customer_name inquiry +:+ " (" +:+ phone inquiry +:+ "). Reason: "
  +:+ Str.take 100 (reason inquiry) +:+ "...".

Definition send_urgent_sms (settings : Settings) (client : bool)
    (inquiry : FinancialInquiry) : list Sms :=
  if negb client then []
  else send_sms settings client (ONCALL_STAFF_PHONE settings) (urgent_message inquiry).

Definition send_staff_notification (settings : Settings) (client : bool)
    (inquiry : FinancialInquiry) : list Sms :=
  if bool_decide (value (priority inquiry) ∈ ["urgent"; "high"])
     && nonempty (ONCALL_STAFF_PHONE settings)
  then send_urgent_sms settings client inquiry
  else [].

End NotificationService.

(** ** The financial turn with its notifications *)

Module FinancialTurn.
Import Database Config FinancialService NotificationService.

(** [FinancialService.is_business_hours]: [hour] is [now.hour] and [weekday]
    is [now.weekday()], 0 for Monday. *)
Definition is_business_hours (settings : Settings) (hour weekday : Z) : bool :=
  let is_weekday := (weekday <? 5)%Z in
  let is_business_time :=
    ((BUSINESS_HOURS_START settings <=? hour) && (hour <? BUSINESS_HOURS_END settings))%Z in
  is_weekday && is_business_time.

(** [handle_after_hours_inquiry] with the messages it has
    [send_staff_notification] send. *)
Definition handle_after_hours_inquiry_sms `{Json} `{OpenAI}
    (settings : Settings) (client : bool) (db : DB)
    (user_input call_sid : string) (now : Z) : DB * (string * bool) * list Sms :=
  let session_data := get_session_data db call_sid in
  let customer_info := extract_customer_info user_input session_data in
  let db := update_session_data db call_sid customer_info now in
  match missing_fields customer_info with
  | field :: _ => (db, (get_next_question field, false), [])
  | [] =>
      match create_inquiry db customer_info now with
      | Some (db, inquiry) =>
          (db, (thank_you (customer_name inquiry), true),
           send_staff_notification settings client inquiry)
      | None => (db, (technical_difficulty, true), [])
      end
  end.

(** A lawful [json]: a dict of strings is printed to a non-empty text and
    read back as it was. *)
Definition json_round_trip (J : Json) : Prop :=
  ∀ d : gmap string string,
    json_dumps d ≠ EmptyString ∧ json_loads (json_dumps d) = Some d.


End FinancialTurn.

(** ** app/main.py, the other routes *)

Module Routes.
Import Config VoiceService Replies.

(** The TwiML verbs of these routes; [Gather] with its optional [timeout]
    and [speech_timeout]. *)
Inductive Twiml : Type :=
| Say (message : string) (voice : option string)
| Gather (input : string) (timeout speech_timeout : option Z) (action method : string)
| Dial (number : string).

Definition joanna : option string := Some "Polly.Joanna".

(** [POST /voice/restaurant] *)
Definition restaurant_voice_handler (settings : Settings) : list Twiml :=
  [ Say ("Hello! Welcome to " +:+ RESTAURANT_NAME settings +:+
         ". I'm your AI assistant. I can help you make a reservation, answer questions about our menu, or provide information about our restaurant. How can I help you today?")
        joanna;
    Gather "speech" (Some 5%Z) (Some 3%Z) "/voice/restaurant/process" "POST";
    Say "I didn't hear anything. Please call back and I'll be happy to help!" None ].

(** [POST /voice/financial] *)
Definition financial_voice_handler (settings : Settings) (hour weekday : Z) : list Twiml :=
  if FinancialTurn.is_business_hours settings hour weekday then
    [ Say ("Thank you for calling " +:+ CREDIT_UNION_NAME settings +:+
           ". Please hold while I transfer you to our customer service team.") None;
      Dial (RESTAURANT_PHONE settings) ]
  else
    [ Say ("Thank you for calling " +:+ CREDIT_UNION_NAME settings +:+
           ". Our offices are currently closed, but I'm here to help collect your information so our team can assist you first thing tomorrow. This will just take a moment.")
          joanna;
      Gather "speech" (Some 5%Z) (Some 3%Z) "/voice/financial/process" "POST" ].

(** [app/services/restaurant_service.py] is not among the sources: the two
    methods the route calls are parameters.  Each gets the database and
    answers the database it leaves and its result, [None] when it raises. *)
Class RestaurantService (DB : Type) : Type := {
  handle_reservation_request : DB → string → string → DB * option (string * bool);
  handle_menu_inquiry : DB → string → DB * option string;
}.

Definition gather_restaurant : Twiml :=
  Gather "speech" None None "/voice/restaurant/process" "POST".

Definition hours_and_location : string :=
  "We're open Monday through Sunday from 11 AM to 10 PM. We're located at [Your Restaurant Address]. You can also visit our website for more information. Is there anything else I can help you with?".

(** The reply of the [except] branch: an apology and a transfer. *)
Definition transfer_to_hostess (settings : Settings) : list Twiml :=
  [ Say "I apologize for the technical difficulty. Let me transfer you to our hostess who can help you right away." None;
    Dial (RESTAURANT_PHONE settings) ].

(** [POST /voice/restaurant/process] over any database state [DB]. *)
Definition process_restaurant_request {DB : Type} `{OpenAI} `{ChatModel}
    `{RestaurantService DB} (settings : Settings) (db : DB)
    (SpeechResult CallSid : option string) : DB * list Twiml :=
  if negb (FinancialService.truthy SpeechResult) || negb (FinancialService.truthy CallSid)
  then
    (db, [ Say "I'm sorry, I didn't catch that. Could you please repeat your request?" None;
           gather_restaurant ])
  else
    let speech := default EmptyString SpeechResult in
    let call_sid := default EmptyString CallSid in
    (* Classify intent *)
    let intent_data := classify_intent speech "restaurant" in
    let intent := default "OTHER" (get_intent intent_data) in
    if String.eqb intent "RESERVATION" then
      match handle_reservation_request db speech call_sid with
      | (db, Some (reply, is_complete)) =>
          (db, Say reply joanna :: (if is_complete then [] else [gather_restaurant]))
      | (db, None) => (db, transfer_to_hostess settings)
      end
    else if String.eqb intent "MENU_INQUIRY" then
      match handle_menu_inquiry db speech with
      | (db, Some reply) =>
          (db, [ Say reply joanna;
                 Say "Is there anything else I can help you with today?" None;
                 gather_restaurant ])
      | (db, None) => (db, transfer_to_hostess settings)
      end
    else if String.eqb intent "HOURS_LOCATION" then
      (db, [ Say hours_and_location joanna; gather_restaurant ])
    else
      (db, [ Say (generate_smart_response intent_data speech "restaurant") joanna;
             gather_restaurant ]).

End Routes.

(** ** app/models/database.py, the sample data *)

Module SampleData.

Record MenuItem : Type := {
  name : string;
  description : string;
  price : string;
  category : string;
  allergens : string;
}.

Definition menu_items : list MenuItem :=
  [ {| name := "Grilled Salmon";
       description := "Fresh Atlantic salmon with lemon herb butter";
       price := "$24.99"; category := "Main Course"; allergens := "fish" |};
    {| name := "Caesar Salad";
       description := "Romaine lettuce, parmesan cheese, croutons, Caesar dressing";
       price := "$12.99"; category := "Appetizer"; allergens := "dairy, gluten" |};
    {| name := "Chocolate Cake";
       description := "Rich chocolate cake with vanilla ice cream";
       price := "$8.99"; category := "Dessert"; allergens := "dairy, eggs, gluten" |} ].

(** [init_sample_data] on the table [menu_items]; [committed] is false when
    the commit raises and the session is rolled back. *)
Definition init_sample_data (table : list MenuItem) (committed : bool) : list MenuItem :=
  if 0 <? length table then table
  else if committed then table ++ menu_items
  else table.

End SampleData.

(** ** What may stand before a phone number *)

Module PhoneForms.
Import VoiceService.


End PhoneForms.

(** * Properties *)

(** ** Strings *)

Module StrFacts.
Import Str.

Lemma app_nil_l (s : string) : EmptyString +:+ s = s.
Proof. reflexivity. Qed.

Lemma app_cons (c : ascii) (s t : string) : String c s +:+ t = String c (s +:+ t).
Proof. reflexivity. Qed.

Lemma app_nil_r (s : string) : s +:+ EmptyString = s.
Proof. induction s as [|c s IH]; [done|]. by rewrite app_cons, IH. Qed.

Lemma app_assoc (s t u : string) : (s +:+ t) +:+ u = s +:+ t +:+ u.
Proof. induction s as [|c s IH]; [done|]. by rewrite !app_cons, IH. Qed.

Lemma length_app (s t : string) :
  String.length (s +:+ t) = String.length s + String.length t.
Proof. induction s as [|c s IH]; [done|]. rewrite app_cons. simpl. by rewrite IH. Qed.

Lemma lower_app (s t : string) : lower (s +:+ t) = lower s +:+ lower t.
Proof. induction s as [|c s IH]; [done|]. rewrite app_cons. simpl. by rewrite IH. Qed.

Lemma filter_app (p : ascii → bool) (s t : string) :
  filter p (s +:+ t) = filter p s +:+ filter p t.
Proof.
  induction s as [|c s IH]; [done|]. rewrite app_cons. simpl.
  destruct (p c); by rewrite ?app_cons, IH.
Qed.

Lemma all_app (p : ascii → bool) (s t : string) :
  all p (s +:+ t) = all p s && all p t.
Proof.
  induction s as [|c s IH]; [done|]. rewrite app_cons. simpl.
  by rewrite IH, andb_assoc.
Qed.

Lemma last_char_app (prev : option ascii) (s t : string) :
  last_char prev (s +:+ t) = last_char (last_char prev s) t.
Proof. revert prev. induction s as [|c s IH]; intros prev; [done|]. rewrite app_cons. apply IH. Qed.

Lemma take_app_length (s t : string) : take (String.length s) (s +:+ t) = s.
Proof. induction s as [|c s IH]; [by destruct t|]. rewrite app_cons. simpl. by rewrite IH. Qed.

Lemma filter_all (p : ascii → bool) (s : string) : all p s = true → filter p s = s.
Proof.
  induction s as [|c s IH]; [done|]. simpl. intros [Hc Hs]%andb_true_iff.
  by rewrite Hc, IH.
Qed.

Lemma filter_none (p q : ascii → bool) (s : string) :
  (∀ c, q c = true → p c = false) → all q s = true → filter p s = EmptyString.
Proof.
  intros Hpq. induction s as [|c s IH]; [done|]. simpl.
  intros [Hc Hs]%andb_true_iff. by rewrite (Hpq c Hc), IH.
Qed.

Lemma startswith_app (p s : string) : startswith p (p +:+ s) = true.
Proof.
  induction p as [|c p IH]; [done|]. rewrite app_cons. simpl.
  by rewrite Ascii.eqb_refl, IH.
Qed.

Lemma startswith_inv (p s : string) :
  startswith p s = true → ∃ post, s = p +:+ post.
Proof.
  revert s. induction p as [|c p IH]; intros s; [by exists s|].
  destruct s as [|d s]; [done|]. simpl.
  intros [Hc Hs]%andb_true_iff. apply Ascii.eqb_eq in Hc as ->.
  destruct (IH s Hs) as [post ->]. by exists post.
Qed.

Lemma contains_app (p pre post : string) : contains p (pre +:+ p +:+ post) = true.
Proof.
  induction pre as [|c pre IH].
  - rewrite app_nil_l. destruct (p +:+ post) eqn:E; simpl; rewrite <- E;
      by rewrite startswith_app.
  - rewrite app_cons. simpl. rewrite IH. apply orb_true_r.
Qed.

Lemma contains_inv (p s : string) :
  contains p s = true → ∃ pre post, s = pre +:+ p +:+ post.
Proof.
  induction s as [|c s IH]; simpl.
  - rewrite orb_false_r. intros [post ->]%startswith_inv. by exists EmptyString, post.
  - intros [H|H]%orb_true_iff.
    + apply startswith_inv in H as [post ->]. by exists EmptyString, post.
    + destruct (IH H) as (pre & post & ->). by exists (String c pre), post.
Qed.

(** [keyword in s.lower()] is the occurrence of [keyword] in any case. *)
Lemma contains_lower (keyword s : string) :
  mentions keyword s → contains keyword (lower s) = true.
Proof.
  intros (pre & mid & post & -> & <-). rewrite !lower_app. apply contains_app.
Qed.

Lemma lower_split (s a b : string) :
  lower s = a +:+ b → ∃ s1 s2, s = s1 +:+ s2 ∧ lower s1 = a ∧ lower s2 = b.
Proof.
  revert s. induction a as [|c a IH]; intros s.
  - rewrite app_nil_l. intros <-. by exists EmptyString, s.
  - destruct s as [|d s]; [done|]. rewrite app_cons. simpl. intros [= Hc Hs].
    destruct (IH s Hs) as (s1 & s2 & -> & <- & <-).
    exists (String d s1), s2. by rewrite <- Hc.
Qed.

Lemma mentions_of_contains (keyword s : string) :
  contains keyword (lower s) = true → mentions keyword s.
Proof.
  intros (a & b & (s1 & s' & -> & _ & (mid & post & -> & Hmid & _)%lower_split)%lower_split)%contains_inv.
  by exists s1, mid, post.
Qed.

Lemma contains_any_intro (ks : list string) (k s : string) :
  k ∈ ks → contains k s = true → contains_any ks s = true.
Proof.
  intros Hk Hc. apply existsb_exists. exists k. split; [|done].
  by apply list_elem_of_In.
Qed.

End StrFacts.

(** ** The keyword classifier *)

Module ClassifierFacts.
Import VoiceService.

(** C4. An utterance that mentions one of the fraud and security keywords
    (in any case, anywhere in the text, whatever else the text holds) is
    classified in the financial context as intent ACCOUNT_INQUIRY with
    priority URGENT and confidence 0.8: the urgent keywords are tested before
    the account and the loan keywords. *)
Theorem urgent_keyword_precedence (user_speech keyword : string) :
  keyword ∈ financial_urgent_words →
  Str.mentions keyword user_speech →
  _fallback_intent_classification user_speech "financial"
  = {| intent := "ACCOUNT_INQUIRY"; priority := Some "URGENT"; confidence := 8 # 10 |}.
Proof.
  intros Hk Hm. unfold _fallback_intent_classification.
  change (String.eqb "financial" "restaurant") with false.
  change (String.eqb "financial" "financial") with true. cbv iota.
  by rewrite (StrFacts.contains_any_intro _ keyword _ Hk (StrFacts.contains_lower _ _ Hm)).
Qed.

(** An utterance with a loan keyword before the urgent one. *)
Lemma urgent_keyword_precedence_witness :
  "stolen" ∈ financial_urgent_words
  ∧ Str.mentions "stolen" "I want a loan balance but my card was STOLEN today"
  ∧ _fallback_intent_classification "I want a loan balance but my card was STOLEN today" "financial"
    = {| intent := "ACCOUNT_INQUIRY"; priority := Some "URGENT"; confidence := 8 # 10 |}.
Proof.
  assert (H1 : "stolen" ∈ financial_urgent_words).
  { unfold financial_urgent_words. apply list_elem_of_In. simpl. tauto. }
  assert (H2 : Str.mentions "stolen" "I want a loan balance but my card was STOLEN today").
  { exists "I want a loan balance but my card was ", "STOLEN", " today". split; reflexivity. }
  split; [exact H1|]. split; [exact H2|].
  exact (urgent_keyword_precedence _ _ H1 H2).
Defined.

End ClassifierFacts.

(** ** The matcher against the declarative reading of a pattern *)

Module RegexFacts.
Import Regex.

Lemma span_app (m rest : string) : span (m +:+ rest) rest = m.
Proof.
  unfold span. rewrite StrFacts.length_app.
  replace (String.length m + String.length rest - String.length rest)
    with (String.length m) by lia.
  apply StrFacts.take_app_length.
Qed.

Lemma rep_sound {A : Type} cls lo hi (k : option ascii → string → option A) a :
  ∀ s n prev,
    rep cls lo hi n prev s k = Some a →
    ∃ m rest,
      s = m +:+ rest
      ∧ Str.all cls m = true
      ∧ lo ≤ n + String.length m
      ∧ (∀ h, hi = Some h → n + String.length m ≤ h ∨ m = EmptyString)
      ∧ k (Str.last_char prev m) rest = Some a.
Proof.
  assert (Hstop : ∀ s n prev,
    (if lo <=? n then k prev s else None) = Some a →
    ∃ m rest, s = m +:+ rest ∧ Str.all cls m = true ∧ lo ≤ n + String.length m
      ∧ (∀ h, hi = Some h → n + String.length m ≤ h ∨ m = EmptyString)
      ∧ k (Str.last_char prev m) rest = Some a).
  { intros s n prev H. destruct (lo <=? n) eqn:Hlo; [|done].
    apply Nat.leb_le in Hlo. exists EmptyString, s. simpl.
    repeat split; [lia | by right | done]. }
  induction s as [|c s IH]; intros n prev; simpl;
    (destruct (below n hi) eqn:Hhi; [|apply Hstop]); [apply Hstop|].
  destruct (cls c) eqn:Hc; [|apply Hstop].
  destruct (rep cls lo hi (S n) (Some c) s k) eqn:Hrec; [|apply Hstop].
  intros [= ->].
  destruct (IH _ _ Hrec) as (m & rest & -> & Hall & Hlen & Hmax & Hk).
  exists (String c m), rest. simpl. rewrite Hc, Hall.
  repeat split; [lia | | done].
  intros h ->. left. destruct (Hmax h eq_refl) as [?| ->]; [lia|].
  simpl in *. apply Nat.ltb_lt in Hhi. lia.
Qed.

Lemma exec_sound {A : Type} (r : regex) :
  ∀ caps prev s (k : captures → option ascii → string → option A) a,
    exec r caps prev s k = Some a →
    ∃ m rest c,
      s = m +:+ rest
      ∧ matches r prev m rest c
      ∧ k (c ++ caps) (Str.last_char prev m) rest = Some a.
Proof.
  induction r as [cls lo hi| |r1 IH1 r2 IH2|r IH|n r IH]; intros caps prev s k a; simpl.
  - intros (m & rest & -> & Hall & Hlo & Hhi & Hk)%rep_sound.
    exists m, rest, []. repeat split; [|done].
    constructor; [done | lia |].
    intros h Hh. destruct (Hhi h Hh) as [?| ->]; simpl; lia.
  - destruct (at_boundary prev s) eqn:Hb; [|done]. intros Hk.
    exists EmptyString, s, []. repeat split; [|done]. by constructor.
  - intros (m1 & rest1 & c1 & -> & Hm1 & H2)%IH1.
    apply IH2 in H2 as (m2 & rest & c2 & -> & Hm2 & Hk).
    exists (m1 +:+ m2), rest, (c2 ++ c1).
    rewrite StrFacts.app_assoc, StrFacts.last_char_app, <- (assoc_L (++)).
    repeat split; [|done]. by constructor.
  - destruct (exec r caps prev s k) eqn:Hr.
    + intros [= ->]. apply IH in Hr as (m & rest & c & -> & Hm & Hk).
      exists m, rest, c. repeat split; [|done]. by constructor.
    + intros Hk. exists EmptyString, s, []. repeat split; [|done]. constructor.
  - intros (m & rest & c & -> & Hm & Hk)%IH. rewrite span_app in Hk.
    exists m, rest, ((n, m) :: c). repeat split; [|done]. by constructor.
Qed.

Lemma match_here_sound (r : regex) prev s mt :
  match_here r prev s = Some mt →
  ∃ rest, s = whole mt +:+ rest ∧ matches r prev (whole mt) rest (groups mt).
Proof.
  unfold match_here.
  intros (m & rest & c & -> & Hm & [= <-])%exec_sound.
  rewrite span_app, app_nil_r. simpl. by exists rest.
Qed.

(** [re.search] answers the match found at some position of the text. *)
Lemma search_from_sound (r : regex) mt :
  ∀ s prev,
    search_from r prev s = Some mt →
    ∃ pre rest, s = pre +:+ rest ∧ match_here r (Str.last_char prev pre) rest = Some mt.
Proof.
  induction s as [|c s IH]; intros prev; simpl.
  - destruct (match_here r prev EmptyString) eqn:Hm; [|done].
    intros [= ->]. by exists EmptyString, EmptyString.
  - destruct (match_here r prev (String c s)) eqn:Hm.
    + intros [= ->]. by exists EmptyString, (String c s).
    + intros (pre & rest & -> & H)%IH. by exists (String c pre), rest.
Qed.

(** A match at a position is found, unless an earlier position has one. *)
Lemma search_from_complete (r : regex) (rest : string) :
  ∀ pre prev,
    is_Some (match_here r (Str.last_char prev pre) rest) →
    ∃ mt pre1 pre2,
      pre = pre1 +:+ pre2
      ∧ search_from r prev (pre +:+ rest) = Some mt
      ∧ match_here r (Str.last_char prev pre1) (pre2 +:+ rest) = Some mt.
Proof.
  induction pre as [|c pre IH]; intros prev Hrest.
  - destruct Hrest as [mt Hmt]. exists mt, EmptyString, EmptyString.
    rewrite StrFacts.app_nil_l. simpl in *. repeat split; [|done].
    destruct rest; simpl; by rewrite Hmt.
  - rewrite StrFacts.app_cons. simpl.
    destruct (match_here r prev (String c (pre +:+ rest))) as [mt|] eqn:Hm.
    + exists mt, EmptyString, (String c pre). by rewrite StrFacts.app_nil_l, StrFacts.app_cons.
    + destruct (IH (Some c) Hrest) as (mt & pre1 & pre2 & -> & Hs & Hh).
      exists mt, (String c pre1), pre2. by rewrite StrFacts.app_cons.
Qed.





End RegexFacts.

(** ** The phone and email recognizers *)

Module RecognizerFacts.
Import Regex VoiceService.

Ltac invert_matches :=
  repeat match goal with
  | H : matches (Cat _ _) _ _ _ _ |- _ => inversion H; subst; clear H
  | H : matches (Group _ _) _ _ _ _ |- _ => inversion H; subst; clear H
  | H : matches (Chars _ _ _) _ _ _ _ |- _ => inversion H; subst; clear H
  | H : matches WordBoundary _ _ _ _ |- _ => inversion H; subst; clear H
  end.

Lemma separator_not_digit (c : ascii) : separator c = true → Char.is_digit c = false.
Proof. by destruct c as [[] [] [] [] [] [] [] []]. Qed.

Lemma literal_not_digit (a : ascii) :
  Char.is_digit a = false → ∀ c, Char.eq a c = true → Char.is_digit c = false.
Proof. unfold Char.eq. by intros Ha c ->%Ascii.eqb_eq. Qed.

(** An optional single character outside [0-9] adds no digit and no group. *)
Lemma optional_symbol (cls : ascii → bool) prev m rest c :
  (∀ ch, cls ch = true → Char.is_digit ch = false) →
  matches (Maybe (Chars cls 1 (Some 1))) prev m rest c →
  c = [] ∧ Str.filter Char.is_digit m = EmptyString.
Proof.
  intros Hcls H. inversion H; subst; clear H; [done|]. invert_matches.
  split; [done|]. by apply (StrFacts.filter_none _ cls).
Qed.

(** The optional country code 1. *)
Lemma optional_one prev m rest c :
  matches (Maybe (lit "1")) prev m rest c →
  c = [] ∧ (m = EmptyString ∨ m = "1").
Proof.
  intros H. inversion H; subst; clear H; [by split; [|left]|].
  unfold lit in *. invert_matches. split; [done|]. right.
  match goal with Hmax : ∀ h, Some _ = Some h → _ |- _ => specialize (Hmax 1 eq_refl) end.
  destruct m as [|a [|b m]]; simpl in *; [lia| |lia].
  match goal with Hall : _ && true = true |- _ =>
    rewrite andb_true_r in Hall; unfold Char.eq in Hall;
    by apply Ascii.eqb_eq in Hall as ->
  end.
Qed.

(** A group of exactly [n] digits. *)
Lemma digit_group (g n : nat) prev m rest c :
  matches (Group g (exactly n Char.is_digit)) prev m rest c →
  c = [(g, m)] ∧ String.length m = n ∧ Str.all Char.is_digit m = true.
Proof.
  unfold exactly. intros H. invert_matches.
  match goal with Hmax : ∀ h, Some _ = Some h → _ |- _ => specialize (Hmax n eq_refl) end.
  repeat split; [lia | done].
Qed.

(** The optional first group [(\+?1?[\s-]?)?]: no group 2, 3 or 4 inside, and
    at most the digit 1. *)
Lemma country_prefix prev m rest c :
  matches (Maybe (Group 1 (Maybe (lit "+") >> Maybe (lit "1") >> Maybe (one separator))%re))
          prev m rest c →
  (∀ n, 2 ≤ n → lookup_group n c = None)
  ∧ (Str.filter Char.is_digit m = EmptyString ∨ Str.filter Char.is_digit m = "1").
Proof.
  intros H. inversion H; subst; clear H; [by split; [|left]|]. invert_matches.
  repeat match goal with
  | H : matches (Maybe (lit "+")) _ _ _ _ |- _ =>
      apply (optional_symbol _ _ _ _ _ (literal_not_digit "+" eq_refl)) in H as [-> ?]
  | H : matches (Maybe (lit "1")) _ _ _ _ |- _ => apply optional_one in H as [-> ?]
  | H : matches (Maybe (one separator)) _ _ _ _ |- _ =>
      apply (optional_symbol _ _ _ _ _ separator_not_digit) in H as [-> ?]
  end.
  split.
  - intros [|[|n]] Hn; simpl; [lia | lia | done].
  - rewrite !StrFacts.filter_app.
    repeat match goal with H : Str.filter _ _ = _ |- _ => rewrite H; clear H end.
    match goal with H : _ ∨ _ |- _ => destruct H as [-> | ->] end; [by left | by right].
Qed.

(** What a match of the phone pattern holds: three groups of 3, 3 and 4
    digits, which are all the digits of the matched text but an optional
    leading country code 1. *)
Lemma phone_pattern_shape prev m rest c :
  matches phone_pattern prev m rest c →
  ∃ area exchange number,
    lookup_group 2 c = Some area
    ∧ lookup_group 3 c = Some exchange
    ∧ lookup_group 4 c = Some number
    ∧ String.length (area +:+ exchange +:+ number) = 10
    ∧ Str.all Char.is_digit (area +:+ exchange +:+ number) = true
    ∧ (Str.filter Char.is_digit m = area +:+ exchange +:+ number
       ∨ Str.filter Char.is_digit m = "1" +:+ area +:+ exchange +:+ number).
Proof.
  unfold phone_pattern. intros H.
  repeat match goal with
  | H : matches (Cat _ _) _ _ _ _ |- _ => inversion H; subst; clear H
  end.
  repeat match goal with
  | H : matches (Maybe (Group 1 _)) _ _ _ _ |- _ => apply country_prefix in H as [Hnone Hcc]
  | H : matches (Maybe (lit "(")) _ _ _ _ |- _ =>
      apply (optional_symbol _ _ _ _ _ (literal_not_digit "(" eq_refl)) in H as [-> ?]
  | H : matches (Maybe (lit ")")) _ _ _ _ |- _ =>
      apply (optional_symbol _ _ _ _ _ (literal_not_digit ")" eq_refl)) in H as [-> ?]
  | H : matches (Maybe (one separator)) _ _ _ _ |- _ =>
      apply (optional_symbol _ _ _ _ _ separator_not_digit) in H as [-> ?]
  | H : matches (Group _ (exactly _ _)) _ _ _ _ |- _ =>
      apply digit_group in H as (-> & ? & ?)
  end.
  eexists _, _, _.
  do 3 (split; [simpl; reflexivity|]).
  rewrite !StrFacts.length_app, !StrFacts.all_app, !StrFacts.filter_app.
  repeat match goal with H : Str.filter _ _ = EmptyString |- _ => rewrite H; clear H end.
  repeat match goal with H : Str.all _ _ = true |- _ =>
    rewrite (StrFacts.filter_all _ _ H); rewrite H; clear H end.
  rewrite !StrFacts.app_nil_l.
  repeat split; [lia|].
  destruct Hcc as [-> | ->]; [by left | by right].
Qed.

(** Every extracted phone number is "+1" and the ten digits of a match of the
    pattern somewhere in the text. *)
Lemma extract_phone_number_sound (text r : string) :
  extract_phone_number text = Some r →
  ∃ pre m post digits,
    text = pre +:+ m +:+ post
    ∧ r = "+1" +:+ digits
    ∧ String.length digits = 10
    ∧ Str.all Char.is_digit digits = true
    ∧ (Str.filter Char.is_digit m = digits ∨ Str.filter Char.is_digit m = "1" +:+ digits).
Proof.
  unfold extract_phone_number, search.
  destruct (search_from phone_pattern None text) as [mt|] eqn:Hs; [|done].
  intros [= <-].
  apply RegexFacts.search_from_sound in Hs as (pre & rest & -> & Hm).
  apply RegexFacts.match_here_sound in Hm as (post & -> & Hm).
  apply phone_pattern_shape in Hm as (a & e & n & H2 & H3 & H4 & Hlen & Hall & Hdig).
  exists pre, (whole mt), post, (a +:+ e +:+ n).
  unfold format_group, group. by rewrite H2, H3, H4.
Qed.

Lemma extract_phone_number_truthy (text r : string) :
  extract_phone_number text = Some r → FinancialService.truthy (Some r) = true.
Proof. by intros (? & ? & ? & ? & _ & -> & _)%extract_phone_number_sound. Qed.

End RecognizerFacts.

(** ** The pattern-matching field extractor *)

Module ExtractorFacts.
Import Regex VoiceService FinancialService.

Lemma extract_email_truthy (text e : string) :
  extract_email text = Some e → truthy (Some e) = true.
Proof.
  unfold extract_email, search.
  destruct (search_from email_pattern None text) as [mt|] eqn:Hs; [|done].
  simpl. intros [= <-].
  apply RegexFacts.search_from_sound in Hs as (pre & rest & -> & Hm).
  apply RegexFacts.match_here_sound in Hm as (post & _ & Hm).
  unfold email_pattern, at_least in Hm.
  inversion Hm as [| |? ? ? ? m2 ? ? ? Hb Hrest| | |]; subst; clear Hm.
  inversion Hb; subst; clear Hb.
  inversion Hrest as [| |? ? ? m3 ? ? ? ? Hlocal _| | |]; subst; clear Hrest.
  inversion Hlocal as [? ? ? ? ? ? _ Hlen _| | | | |]; subst; clear Hlocal.
  rewrite StrFacts.app_nil_l. by destruct m3; simpl in *; [lia|].
Qed.

Ltac split_extract :=
  unfold _extract_with_fallback; cbv zeta;
  repeat match goal with
  | |- context [extract_phone_number ?t] =>
      let E := fresh "Hphone" in
      destruct (extract_phone_number t) eqn:E;
      [rewrite (RecognizerFacts.extract_phone_number_truthy _ _ E)|]
  | |- context [extract_email ?t] =>
      let E := fresh "Hemail" in
      destruct (extract_email t) eqn:E;
      [rewrite (extract_email_truthy _ _ E)|]
  | |- context [if ?b then _ else _] => destruct b eqn:?
  end;
  repeat first [rewrite lookup_insert_eq | rewrite lookup_insert_ne by discriminate].

(** The name is written only while it is unset. *)
Lemma fallback_keeps_name (text : string) (known : gmap string string) :
  truthy (known !! "name") = true →
  _extract_with_fallback text known !! "name" = known !! "name".
Proof. intros Hname. split_extract; try done; by rewrite Hname in *. Qed.

(** The reason is the first utterance of the call. *)
Lemma fallback_reason (text : string) (known : gmap string string) :
  _extract_with_fallback text known !! "reason"
  = if truthy (known !! "reason") then known !! "reason" else Some text.
Proof. split_extract; try done; simpl in *; congruence. Qed.

(** The phone number and the email address follow the latest utterance that
    holds one. *)
Lemma fallback_phone (text : string) (known : gmap string string) :
  _extract_with_fallback text known !! "phone"
  = match extract_phone_number text with
    | Some p => Some p
    | None => known !! "phone"
    end.
Proof. split_extract; done. Qed.

Lemma fallback_email (text : string) (known : gmap string string) :
  _extract_with_fallback text known !! "email"
  = match extract_email text with
    | Some e => Some e
    | None => known !! "email"
    end.
Proof. split_extract; done. Qed.

(** The priority is that of the utterance at hand. *)
Lemma fallback_priority (text : string) (known : gmap string string) :
  _extract_with_fallback text known !! "priority" = Some (_determine_priority text).
Proof. unfold _extract_with_fallback. cbv zeta. apply lookup_insert_eq. Qed.

Lemma determine_priority_cases (text : string) :
  _determine_priority text = "URGENT"
  ∨ _determine_priority text = "HIGH"
  ∨ _determine_priority text = "MEDIUM".
Proof. unfold _determine_priority. repeat case_match; auto. Qed.

End ExtractorFacts.

(** ** Phone extraction *)

Module PhoneClaims.
Import Regex VoiceService FinancialService PhoneForms.

Lemma app_same_length (a b x y : string) :
  a +:+ x = b +:+ y → String.length a = String.length b → a = b.
Proof.
  revert b. induction a as [|c a IH]; intros [|d b]; simpl; try done.
  rewrite !StrFacts.app_cons. intros [= -> H] [= Hlen]. f_equal. by apply IH.
Qed.


(** The pattern matches where one of the three written forms starts,
    whatever surrounds it. *)
Lemma written_form_matches (form : string) prev post :
  form ∈ ["(555) 123-4567"; "555-123-4567"; "5551234567"] →
  is_Some (match_here phone_pattern prev (form +:+ post)).
Proof.
  intros Hform. destruct (match_here phone_pattern prev (form +:+ post)) eqn:E; [eauto|].
  exfalso. apply list_elem_of_In in Hform. simpl in Hform.
  destruct Hform as [<-|[<-|[<-|[]]]]; destruct post; vm_compute in E; discriminate.
Qed.

(** A match that starts at a written form, or among the characters before it
    when none of them is a digit, has the digits 555 123 4567. *)
Lemma match_reads_written_form (pre form post : string) prev mt :
  form ∈ ["(555) 123-4567"; "555-123-4567"; "5551234567"] →
  Str.filter Char.is_digit pre = EmptyString →
  match_here phone_pattern prev (pre +:+ form +:+ post) = Some mt →
  "+1" +:+ format_group mt 2 +:+ format_group mt 3 +:+ format_group mt 4 = "+15551234567".
Proof.
  intros Hform Hpre Hhere.
  apply RegexFacts.match_here_sound in Hhere as (rest & Htext & Hm).
  apply RecognizerFacts.phone_pattern_shape in Hm
    as (a & e & n & H2 & H3 & H4 & Hlen & _ & Hdig).
  unfold format_group, group. rewrite H2, H3, H4. simpl.
  apply (f_equal (Str.filter Char.is_digit)) in Htext.
  rewrite !StrFacts.filter_app, Hpre, StrFacts.app_nil_l in Htext.
  assert (Hdigits : Str.filter Char.is_digit form = "5551234567").
  { apply list_elem_of_In in Hform. simpl in Hform.
    by destruct Hform as [<-|[<-|[<-|[]]]]. }
  rewrite Hdigits in Htext.
  destruct Hdig as [Hd|Hd]; rewrite Hd in Htext.
  - symmetry in Htext. apply app_same_length in Htext; [|by rewrite Hlen].
    by rewrite Htext.
  - by rewrite !StrFacts.app_cons in Htext.
Qed.


(** A written form before which the pattern matches nowhere gives the
    canonical number. *)
Lemma written_form_leftmost (pre form post : string) :
  form ∈ ["(555) 123-4567"; "555-123-4567"; "5551234567"] →
  (∀ pre1 pre2 m rest caps,
     pre = pre1 +:+ pre2 → pre2 ≠ EmptyString →
     pre2 +:+ form +:+ post = m +:+ rest →
     ¬ matches phone_pattern (Str.last_char None pre1) m rest caps) →
  extract_phone_number (pre +:+ form +:+ post) = Some "+15551234567".
Proof.
  intros Hform Hnone.
  destruct (RegexFacts.search_from_complete phone_pattern (form +:+ post) pre None
              (written_form_matches form _ post Hform))
    as (mt & pre1 & pre2 & Hpre & Hsearch & Hhere).
  unfold extract_phone_number, search. rewrite Hsearch. f_equal.
  destruct pre2 as [|c pre2].
  - by apply (match_reads_written_form EmptyString form post (Str.last_char None pre1) mt).
  - exfalso. apply RegexFacts.match_here_sound in Hhere as (rest & Htext & Hm).
    by apply (Hnone pre1 (String c pre2) (whole mt) rest (groups mt)).
Qed.














(** Why the prefix needs its side condition: behind a space the country code
    is read as the first digit of the number. *)
Example country_code_read_as_digit :
  extract_phone_number " 15551234567" = Some "+11555123456".
Proof. by vm_compute. Qed.


End PhoneClaims.

(** ** What the extractor keeps and what it overwrites *)

Module ExtractorClaims.
Import VoiceService FinancialService.

(** C2, as the code has it.  A name and a reason that are already non-empty
    are kept; the phone number and the email address are replaced by the
    value recognized in the utterance whenever there is one, and kept when
    there is none. *)
Theorem extractor_first_value_fields (text : string) (known : gmap string string) :
  (truthy (known !! "name") = true →
   _extract_with_fallback text known !! "name" = known !! "name")
  ∧ (truthy (known !! "reason") = true →
     _extract_with_fallback text known !! "reason" = known !! "reason")
  ∧ _extract_with_fallback text known !! "phone"
    = match extract_phone_number text with
      | Some p => Some p
      | None => known !! "phone"
      end
  ∧ _extract_with_fallback text known !! "email"
    = match extract_email text with
      | Some e => Some e
      | None => known !! "email"
      end.
Proof.
  split; [apply ExtractorFacts.fallback_keeps_name|].
  split; [intros Hreason; by rewrite ExtractorFacts.fallback_reason, Hreason|].
  split; [apply ExtractorFacts.fallback_phone | apply ExtractorFacts.fallback_email].
Qed.

(** A later utterance that introduces somebody else and gives no number. *)
Lemma extractor_first_value_fields_witness :
  _extract_with_fallback "this is Mary Jones"
    (<["name" := "John Smith"]> (<["phone" := "+15551234567"]> ∅)) !! "name"
  = Some "John Smith"
  ∧ _extract_with_fallback "this is Mary Jones"
      (<["name" := "John Smith"]> (<["phone" := "+15551234567"]> ∅)) !! "phone"
    = Some "+15551234567".
Proof.
  destruct (extractor_first_value_fields "this is Mary Jones"
              (<["name" := "John Smith"]> (<["phone" := "+15551234567"]> ∅)))
    as (Hname & _ & Hphone & _).
  split.
  - rewrite Hname; [|reflexivity]. by vm_compute.
  - rewrite Hphone. by vm_compute.
Defined.

(** C2 as stated fails for the phone number and for the email address: both
    are non-empty in the known fields and both change. *)
Lemma extractor_overwrites_phone_and_email :
  truthy ((<["phone" := "+15551234567"]> (<["email" := "john@example.com"]> ∅)
           : gmap string string) !! "phone") = true
  ∧ _extract_with_fallback "reach me at 444-333-2222 or mary@example.org"
      (<["phone" := "+15551234567"]> (<["email" := "john@example.com"]> ∅)) !! "phone"
    = Some "+14443332222"
  ∧ _extract_with_fallback "reach me at 444-333-2222 or mary@example.org"
      (<["phone" := "+15551234567"]> (<["email" := "john@example.com"]> ∅)) !! "email"
    = Some "mary@example.org".
Proof. split; [reflexivity|]. split; by vm_compute. Qed.

(** C8, as the code has it.  While the reason is unset the whole utterance is
    stored verbatim as the reason, whether or not the name, phone or email
    recognizer also matched it. *)
Theorem reason_is_whole_utterance (text : string) (known : gmap string string) :
  truthy (known !! "reason") = false →
  _extract_with_fallback text known !! "reason" = Some text.
Proof. intros Hreason. by rewrite ExtractorFacts.fallback_reason, Hreason. Qed.

Lemma reason_is_whole_utterance_witness :
  _extract_with_fallback "someone used my card in another city" ∅ !! "reason"
  = Some "someone used my card in another city".
Proof.
  apply (reason_is_whole_utterance "someone used my card in another city" ∅).
  reflexivity.
Defined.

(** C8 as stated fails: the name recognizer and the phone recognizer both
    take a value from the utterance, and the utterance is the reason all the
    same. *)
Lemma consumed_utterance_is_reason :
  _extract_with_fallback "my name is John Smith 555-123-4567" ∅ !! "name"
  = Some "John Smith"
  ∧ _extract_with_fallback "my name is John Smith 555-123-4567" ∅ !! "phone"
    = Some "+15551234567"
  ∧ _extract_with_fallback "my name is John Smith 555-123-4567" ∅ !! "reason"
    = Some "my name is John Smith 555-123-4567".
Proof. repeat split; by vm_compute. Qed.

End ExtractorClaims.

(** ** The session store, the finalizer and one turn *)

Module TurnFacts.
Import Database FinancialService.

Lemma truthy_Some (v : option string) :
  truthy v = true → ∃ s, v = Some s ∧ s ≠ EmptyString.
Proof. destruct v as [[|c s]|]; try done. intros _. by exists (String c s). Qed.

Lemma missing_fields_nil (info : gmap string string) :
  missing_fields info = []
  ↔ truthy (info !! "name") = true
    ∧ truthy (info !! "phone") = true
    ∧ truthy (info !! "reason") = true.
Proof.
  unfold missing_fields, required_fields.
  rewrite !filter_cons, filter_nil.
  destruct (truthy (info !! "name")), (truthy (info !! "phone")),
    (truthy (info !! "reason")); simpl; repeat case_decide; try done;
    (split; [intros ?|intros (? & ? & ?)]; done).
Qed.

(** The first missing field, by cases on the checklist. *)
Lemma missing_fields_head (info : gmap string string) (field : string) (rest : list string) :
  missing_fields info = field :: rest → earliest_missing info field.
Proof.
  unfold missing_fields, required_fields, earliest_missing.
  rewrite !filter_cons, filter_nil.
  destruct (truthy (info !! "name")) eqn:Hn, (truthy (info !! "phone")) eqn:Hp,
    (truthy (info !! "reason")) eqn:Hr; simpl; repeat case_decide; try done;
    intros [= <- <-].
  all: first
    [ exists [], ["phone"; "reason"]; split; [done|]; split; [done|];
      intros f Hf; by apply elem_of_nil in Hf
    | exists ["name"], ["reason"]; split; [done|]; split; [done|];
      intros f ->%list_elem_of_singleton; done
    | exists ["name"; "phone"], []; split; [done|]; split; [done|];
      intros f Hf; apply elem_of_cons in Hf as [->|Hf]; [done|];
      apply list_elem_of_singleton in Hf as ->; done ].
Qed.

Lemma missing_fields_cons (info : gmap string string) (f : string) :
  f ∈ required_fields → truthy (info !! f) = false →
  ∃ field rest, missing_fields info = field :: rest.
Proof.
  intros Hf Hmiss. destruct (missing_fields info) as [|field rest] eqn:E; [|eauto].
  apply missing_fields_nil in E as (Hn & Hp & Hr).
  unfold required_fields in Hf.
  apply elem_of_cons in Hf as [->|Hf]; [congruence|].
  apply elem_of_cons in Hf as [->|Hf]; [congruence|].
  apply list_elem_of_singleton in Hf as ->. congruence.
Qed.

(** Which fields are missing decides the field asked for. *)
Lemma missing_fields_ext (info info' : gmap string string) :
  (∀ f, f ∈ required_fields → truthy (info !! f) = truthy (info' !! f)) →
  missing_fields info = missing_fields info'.
Proof.
  intros Hsame. unfold missing_fields, required_fields in *.
  rewrite !filter_cons, !filter_nil.
  by rewrite (Hsame "name"), (Hsame "phone"), (Hsame "reason") by set_solver.
Qed.

Lemma create_inquiry_complete (db : DB) (info : gmap string string) (now : Z) :
  missing_fields info = [] →
  ∃ inquiry,
    create_inquiry db info now
    = Some ({| call_sessions := call_sessions db;
               financial_inquiries := financial_inquiries db ++ [inquiry] |}, inquiry)
    ∧ Some (customer_name inquiry) = info !! "name"
    ∧ priority inquiry = inquiry_priority info
    ∧ id inquiry = next_id (financial_inquiries db).
Proof.
  intros (Hn & Hp & Hr)%missing_fields_nil.
  apply truthy_Some in Hn as (n & Hn & _).
  apply truthy_Some in Hp as (p & Hp & _).
  apply truthy_Some in Hr as (r & Hr & _).
  unfold create_inquiry. rewrite Hn, Hp, Hr. simpl. eexists. by split.
Qed.

Lemma create_inquiry_priority (db db' : DB) (info : gmap string string) (now : Z) inquiry :
  create_inquiry db info now = Some (db', inquiry) →
  priority inquiry = inquiry_priority info.
Proof.
  unfold create_inquiry.
  destruct (info !! "name"), (info !! "phone"), (info !! "reason"); simpl; try done.
  by intros [= <- <-].
Qed.

Section Store.
Context `{Json}.

Lemma session_after_update (db : DB) (sid : string) (data : gmap string string) (now : Z) :
  session_data <$> call_sessions (update_session_data db sid data now) !! sid
  = Some (Some (json_dumps data)).
Proof.
  unfold update_session_data. simpl. rewrite lookup_insert_eq.
  by destruct (call_sessions db !! sid).
Qed.

Lemma session_loaded_back (db : DB) (sid : string) (data : gmap string string) (now : Z) :
  json_dumps data ≠ EmptyString →
  json_loads (json_dumps data) = Some data →
  get_session_data (update_session_data db sid data now) sid = data.
Proof.
  intros Hne Hload. unfold get_session_data.
  pose proof (session_after_update db sid data now) as Hs.
  destruct (call_sessions (update_session_data db sid data now) !! sid) as [session|];
    [|done].
  simpl in Hs. injection Hs as ->. simpl.
  destruct (json_dumps data) eqn:E; [done|]. simpl. by rewrite Hload.
Qed.

Context `{OpenAI}.

(** The completing turn: the session is written, one record is added and the
    caller is thanked.  No earlier record is looked up. *)
Lemma turn_complete (db : DB) (text sid : string) (now : Z) :
  let info := extract_customer_info text (get_session_data db sid) in
  missing_fields info = [] →
  ∃ inquiry,
    handle_after_hours_inquiry db text sid now
    = ({| call_sessions := call_sessions (update_session_data db sid info now);
          financial_inquiries := financial_inquiries db ++ [inquiry] |},
       (thank_you (customer_name inquiry), true))
    ∧ Some (customer_name inquiry) = info !! "name"
    ∧ priority inquiry = inquiry_priority info.
Proof.
  intros info Hcomplete. unfold handle_after_hours_inquiry. fold info. rewrite Hcomplete.
  destruct (create_inquiry_complete (update_session_data db sid info now) info now Hcomplete)
    as (inquiry & -> & Hname & Hprio & _).
  by exists inquiry.
Qed.

(** A turn that still misses a field: the session is written and the first
    missing field is asked for. *)
Lemma turn_collecting (db : DB) (text sid : string) (now : Z) field rest :
  let info := extract_customer_info text (get_session_data db sid) in
  missing_fields info = field :: rest →
  handle_after_hours_inquiry db text sid now
  = (update_session_data db sid info now, (get_next_question field, false)).
Proof. intros info Hm. unfold handle_after_hours_inquiry. fold info. by rewrite Hm. Qed.

(** Every turn writes the extracted fields to the session of its call. *)
Lemma turn_writes_session (db : DB) (text sid : string) (now : Z) :
  session_data <$> call_sessions (handle_after_hours_inquiry db text sid now).1 !! sid
  = Some (Some (json_dumps (extract_customer_info text (get_session_data db sid)))).
Proof.
  set (info := extract_customer_info text (get_session_data db sid)).
  destruct (missing_fields info) as [|field rest] eqn:Hm.
  - destruct (turn_complete db text sid now Hm) as (inquiry & -> & _). simpl.
    apply session_after_update.
  - rewrite (turn_collecting db text sid now field rest Hm). simpl.
    apply session_after_update.
Qed.

End Store.

End TurnFacts.

(** ** The turn handler *)

Module TurnClaims.
Import Database FinancialService.

Lemma get_session_data_sessions `{Json} (db db' : DB) (sid : string) :
  call_sessions db = call_sessions db' → get_session_data db sid = get_session_data db' sid.
Proof. unfold get_session_data. by intros ->. Qed.

(** The pattern matcher keeps a complete checklist complete. *)
Lemma fallback_keeps_complete (text : string) (info : gmap string string) :
  missing_fields info = [] → missing_fields (_extract_with_fallback text info) = [].
Proof.
  rewrite !TurnFacts.missing_fields_nil. intros (Hn & Hp & Hr).
  rewrite ExtractorFacts.fallback_keeps_name, ExtractorFacts.fallback_reason,
    ExtractorFacts.fallback_phone, Hr by done.
  repeat split; try done.
  destruct (VoiceService.extract_phone_number text) eqn:E; [|done].
  by apply RecognizerFacts.extract_phone_number_truthy in E.
Qed.

(** C5. Whenever the fields extracted in a turn leave a checklist field
    empty, the handler answers with the canned question of the earliest
    missing field of name, phone, reason, keeps collecting (the completion
    flag is false) and creates no record; any other turn with the same fields
    missing gets the same answer. *)
Theorem checklist_asks_earliest_missing `{Json} `{OpenAI}
    (db : DB) (text sid : string) (now : Z) :
  let info := extract_customer_info text (get_session_data db sid) in
  (∃ f, f ∈ required_fields ∧ truthy (info !! f) = false) →
  ∃ field,
    earliest_missing info field
    ∧ questions !! field = Some (get_next_question field)
    ∧ handle_after_hours_inquiry db text sid now
      = (update_session_data db sid info now, (get_next_question field, false))
    ∧ financial_inquiries (handle_after_hours_inquiry db text sid now).1
      = financial_inquiries db
    ∧ ∀ db' text' sid' now',
        (∀ f, f ∈ required_fields →
           truthy (extract_customer_info text' (get_session_data db' sid') !! f)
           = truthy (info !! f)) →
        (handle_after_hours_inquiry db' text' sid' now').2 = (get_next_question field, false).
Proof.
  intros info (f & Hf & Hmiss).
  destruct (TurnFacts.missing_fields_cons info f Hf Hmiss) as (field & rest & Hm).
  pose proof (TurnFacts.missing_fields_head info field rest Hm) as Hfirst.
  exists field. split; [done|]. split.
  { destruct Hfirst as (before & after & Hlist & _).
    assert (Hin : field ∈ required_fields).
    { rewrite Hlist. apply elem_of_app. right. apply elem_of_cons. by left. }
    unfold required_fields in Hin. unfold get_next_question.
    apply elem_of_cons in Hin as [->|Hin]; [done|].
    apply elem_of_cons in Hin as [->|Hin]; [done|].
    by apply list_elem_of_singleton in Hin as ->. }
  rewrite (TurnFacts.turn_collecting db text sid now field rest Hm).
  split; [done|]. split; [done|].
  intros db' text' sid' now' Hsame.
  rewrite (TurnFacts.turn_collecting db' text' sid' now' field rest); [done|].
  by rewrite (TurnFacts.missing_fields_ext _ info Hsame).
Qed.

(** The caller gives a name first: a checklist question is asked and the
    call goes on. *)
Lemma checklist_asks_earliest_missing_witness :
  ∃ field,
    field ∈ required_fields
    ∧ (@handle_after_hours_inquiry PyJson.python_json PyJson.demo_mode
         empty_db "my name is John Smith" "CA1" 1).2
      = (get_next_question field, false).
Proof.
  destruct (@checklist_asks_earliest_missing PyJson.python_json PyJson.demo_mode
              empty_db "my name is John Smith" "CA1" 1)
    as (field & (before & after & Hlist & _) & _ & Hturn & _).
  { exists "phone". split; [|by vm_compute].
    apply elem_of_cons. right. apply elem_of_cons. by left. }
  exists field. split.
  - rewrite Hlist. apply elem_of_app. right. apply elem_of_cons. by left.
  - rewrite Hturn. reflexivity.
Defined.

(** C1, as the code has it.  The handler never looks for an earlier record of
    the call: each turn after which name, phone and reason are all non-empty
    adds exactly one inquiry, so handling the completing turn a second time
    for the same call adds a second one.  (Stated for the pattern-matching
    extractor and a session that is read back as it was written.) *)
Theorem replayed_turn_creates_second_record `{Json} `{OpenAI}
    (db : DB) (text sid : string) (now now' : Z) :
  let info := extract_customer_info text (get_session_data db sid) in
  let first_turn := handle_after_hours_inquiry db text sid now in
  let second_turn := handle_after_hours_inquiry first_turn.1 text sid now' in
  openai_enabled = false →
  json_dumps info ≠ EmptyString →
  json_loads (json_dumps info) = Some info →
  missing_fields info = [] →
  ∃ inquiry inquiry',
    financial_inquiries first_turn.1 = financial_inquiries db ++ [inquiry]
    ∧ financial_inquiries second_turn.1 = financial_inquiries db ++ [inquiry; inquiry']
    ∧ first_turn.2 = (thank_you (customer_name inquiry), true)
    ∧ second_turn.2 = (thank_you (customer_name inquiry'), true)
    ∧ customer_name inquiry' = customer_name inquiry.
Proof.
  intros info first_turn second_turn Hoff Hne Hload Hcomplete.
  destruct (TurnFacts.turn_complete db text sid now Hcomplete)
    as (inquiry & Hfirst & Hname & _).
  fold info in Hfirst, Hname. fold first_turn in Hfirst.
  assert (Hback : get_session_data first_turn.1 sid = info).
  { rewrite Hfirst.
    etrans; [|exact (TurnFacts.session_loaded_back db sid info now Hne Hload)].
    by apply get_session_data_sessions. }
  assert (Hinfo' : extract_customer_info text (get_session_data first_turn.1 sid)
                   = _extract_with_fallback text info).
  { unfold extract_customer_info. by rewrite Hoff, Hback. }
  assert (Hcomplete' :
    missing_fields (extract_customer_info text (get_session_data first_turn.1 sid)) = []).
  { rewrite Hinfo'. by apply fallback_keeps_complete. }
  destruct (TurnFacts.turn_complete first_turn.1 text sid now' Hcomplete')
    as (inquiry' & Hsecond & Hname' & _).
  fold second_turn in Hsecond.
  exists inquiry, inquiry'. rewrite Hsecond, Hfirst. simpl.
  rewrite <- (assoc_L (++)). repeat split.
  rewrite Hinfo', ExtractorFacts.fallback_keeps_name in Hname'.
  - congruence.
  - by apply TurnFacts.missing_fields_nil in Hcomplete as (? & _).
Qed.

(** One utterance that completes the call, handled twice. *)
Lemma replayed_turn_creates_second_record_witness :
  ∃ inquiry inquiry',
    financial_inquiries
      (@handle_after_hours_inquiry PyJson.python_json PyJson.demo_mode
         (@handle_after_hours_inquiry PyJson.python_json PyJson.demo_mode
            empty_db "my name is John Smith 555-123-4567" "CA1" 1).1
         "my name is John Smith 555-123-4567" "CA1" 2).1
    = [inquiry; inquiry'].
Proof.
  destruct (@replayed_turn_creates_second_record PyJson.python_json PyJson.demo_mode
              empty_db "my name is John Smith 555-123-4567" "CA1" 1 2)
    as (inquiry & inquiry' & _ & Hsecond & _).
  - reflexivity.
  - vm_compute. discriminate.
  - vm_compute. reflexivity.
  - vm_compute. reflexivity.
  - exists inquiry, inquiry'. exact Hsecond.
Defined.

(** C1 as stated fails: the call CA1 completes on its second turn, the same
    request is delivered again, and two records exist. *)
Lemma replay_duplicates_record :
  length (financial_inquiries
    (@run_call PyJson.python_json PyJson.demo_mode empty_db "CA1"
       [("my name is John Smith", 1%Z); ("555-123-4567", 2%Z)])) = 1
  ∧ length (financial_inquiries
      (@run_call PyJson.python_json PyJson.demo_mode empty_db "CA1"
         [("my name is John Smith", 1%Z); ("555-123-4567", 2%Z); ("555-123-4567", 3%Z)])) = 2.
Proof. split; by vm_compute. Qed.

(** C3, as the code has it.  After every turn handled by the pattern-matching
    extractor, the priority stored in the session is the one derived from
    that turn's utterance alone, whatever was stored before: URGENT exactly
    when the utterance has an urgent keyword, else HIGH or MEDIUM. *)
Theorem priority_follows_last_utterance `{Json} `{OpenAI}
    (db : DB) (sid : string) (turns : list (string * Z)) (text : string) (now : Z) :
  openai_enabled = false →
  ∃ info,
    session_data <$> call_sessions (run_call db sid (turns ++ [(text, now)])) !! sid
    = Some (Some (json_dumps info))
    ∧ info !! "priority" = Some (_determine_priority text)
    ∧ (_determine_priority text = "URGENT"
       ↔ Str.contains_any urgent_keywords (Str.lower text) = true)
    ∧ (_determine_priority text = "URGENT" ∨ _determine_priority text = "HIGH"
       ∨ _determine_priority text = "MEDIUM").
Proof.
  intros Hoff.
  assert (Hurgent : _determine_priority text = "URGENT"
                    ↔ Str.contains_any urgent_keywords (Str.lower text) = true).
  { unfold _determine_priority.
    destruct (Str.contains_any urgent_keywords (Str.lower text)); [by split|].
    destruct (Str.contains_any high_keywords (Str.lower text)); split; intros; discriminate. }
  unfold run_call. rewrite foldl_app. cbn [foldl fst snd].
  set (db0 := foldl _ db turns).
  exists (extract_customer_info text (get_session_data db0 sid)).
  split; [apply TurnFacts.turn_writes_session|].
  split; [unfold extract_customer_info; rewrite Hoff; apply ExtractorFacts.fallback_priority|].
  split; [exact Hurgent|apply ExtractorFacts.determine_priority_cases].
Qed.

Lemma priority_follows_last_utterance_witness :
  ∃ info,
    session_data <$> call_sessions
      (@run_call PyJson.python_json PyJson.demo_mode empty_db "CA1"
         ([("my card was stolen", 1%Z)] ++ [("my name is John Smith", 2%Z)])) !! "CA1"
    = Some (Some (PyJson.dumps info))
    ∧ info !! "priority" = Some "MEDIUM".
Proof.
  destruct (@priority_follows_last_utterance PyJson.python_json PyJson.demo_mode
              empty_db "CA1" [("my card was stolen", 1%Z)] "my name is John Smith" 2
              eq_refl)
    as (info & Hrow & Hprio & _).
  exists info. split; [exact Hrow|]. rewrite Hprio. by vm_compute.
Defined.

(** C3 as stated fails: the session of call CA1 holds URGENT after the first
    turn and MEDIUM after the second. *)
Lemma priority_is_downgraded :
  @session_field PyJson.python_json
    (@run_call PyJson.python_json PyJson.demo_mode empty_db "CA1"
       [("my card was stolen", 1%Z)]) "CA1" "priority" = Some "URGENT"
  ∧ @session_field PyJson.python_json
      (@run_call PyJson.python_json PyJson.demo_mode empty_db "CA1"
         [("my card was stolen", 1%Z); ("my name is John Smith", 2%Z)]) "CA1" "priority"
    = Some "MEDIUM".
Proof. split; by vm_compute. Qed.

End TurnClaims.

(** ** The finalizer, the session load and the request guard *)

Module StoreClaims.
Import Database FinancialService Main.

Lemma priority_map_other (v : string) :
  v ∉ ["LOW"; "MEDIUM"; "HIGH"; "URGENT"] → priority_map !! v = None.
Proof.
  intros Hv. unfold priority_map. simpl.
  repeat (rewrite lookup_insert_ne; [|intros <-; apply Hv; set_solver]).
  apply lookup_empty.
Qed.

Lemma priority_map_member (p : InquiryPriority) :
  priority_map !! member_name p = Some p.
Proof. by destruct p. Qed.

(** C9. The record is created with the priority that the fixed map from
    LOW, MEDIUM, HIGH, URGENT gives to the priority field, and with MEDIUM
    when the field is absent or holds any other string. *)
Theorem record_priority_mapping (db db' : DB) (info : gmap string string) (now : Z)
    (inquiry : FinancialInquiry) :
  create_inquiry db info now = Some (db', inquiry) →
  (∀ p, info !! "priority" = Some (member_name p) → priority inquiry = p)
  ∧ (info !! "priority" = None → priority inquiry = MEDIUM)
  ∧ (∀ v, info !! "priority" = Some v →
          v ∉ ["LOW"; "MEDIUM"; "HIGH"; "URGENT"] → priority inquiry = MEDIUM).
Proof.
  intros ->%TurnFacts.create_inquiry_priority. unfold inquiry_priority.
  split; [|split].
  - intros p ->. simpl. by rewrite priority_map_member.
  - by intros ->.
  - intros v -> Hv. simpl. by rewrite priority_map_other.
Qed.

Lemma record_priority_mapping_witness :
  ∃ db' inquiry,
    create_inquiry empty_db
      (<["name" := "John Smith"]> (<["phone" := "+15551234567"]>
        (<["reason" := "my card was stolen"]> (<["priority" := "URGENT"]> ∅)))) 7
    = Some (db', inquiry)
    ∧ priority inquiry = URGENT.
Proof.
  destruct (create_inquiry empty_db
      (<["name" := "John Smith"]> (<["phone" := "+15551234567"]>
        (<["reason" := "my card was stolen"]> (<["priority" := "URGENT"]> ∅)))) 7)
    as [[db' inquiry]|] eqn:Hcreate; [|by vm_compute in Hcreate].
  exists db', inquiry. split; [reflexivity|].
  destruct (record_priority_mapping _ _ _ _ _ Hcreate) as (Hmember & _).
  apply (Hmember URGENT). by vm_compute.
Defined.

(** The reply of a turn depends on the database through the fields loaded
    for the call and the inquiries on record. *)
Lemma turn_reply_ext `{Json} `{OpenAI} (db db' : DB) (text sid : string) (now : Z) :
  get_session_data db sid = get_session_data db' sid →
  financial_inquiries db = financial_inquiries db' →
  (handle_after_hours_inquiry db text sid now).2
  = (handle_after_hours_inquiry db' text sid now).2.
Proof.
  intros Hdata Hrows. unfold handle_after_hours_inquiry. rewrite Hdata.
  destruct (missing_fields _); [|done].
  unfold create_inquiry, update_session_data. simpl. rewrite Hrows.
  by destruct (_ !! "name"), (_ !! "phone"), (_ !! "reason").
Qed.

(** C10. Loading the session of a call answers the empty field set when the
    call has no session row, when the row holds no session data, and when
    the data is not valid JSON; the turn then goes on as it would for a call
    without a session. *)
Theorem session_load_degrades `{Json} (db : DB) (call_sid : string) :
  (call_sessions db !! call_sid = None
   ∨ (∃ session, call_sessions db !! call_sid = Some session
                 ∧ session_data session = None)
   ∨ (∃ session text, call_sessions db !! call_sid = Some session
                      ∧ session_data session = Some text
                      ∧ json_loads text = None)) →
  get_session_data db call_sid = ∅
  ∧ ∀ `{OpenAI} text now,
      (handle_after_hours_inquiry db text call_sid now).2
      = (handle_after_hours_inquiry
           {| call_sessions := delete call_sid (call_sessions db);
              financial_inquiries := financial_inquiries db |} text call_sid now).2.
Proof.
  intros Hcases.
  assert (Hempty : get_session_data db call_sid = ∅).
  { unfold get_session_data.
    destruct Hcases as [->|[(session & -> & Hdata)|(session & text & -> & Hdata & Hload)]];
      [done| |]; rewrite Hdata; simpl; [done|].
    rewrite Hload. by destruct (Str.is_empty text). }
  split; [done|]. intros O text now.
  apply turn_reply_ext; [|done].
  rewrite Hempty. unfold get_session_data. simpl. by rewrite lookup_delete_eq.
Qed.

(** A session row whose data was cut short. *)
Lemma session_load_degrades_witness :
  @get_session_data PyJson.python_json
    {| call_sessions :=
         {["CA1" := {| call_type := "financial";
                       session_data := Some "{ name: John";
                       updated_at := 3 |}]};
       financial_inquiries := [] |} "CA1"
  = ∅.
Proof.
  apply (@session_load_degrades PyJson.python_json).
  right. right. eexists _, _. split; [apply lookup_singleton_eq|].
  split; [reflexivity|]. by vm_compute.
Defined.

(** C7. A request without an utterance (absent or empty) or without a call
    id is answered with the re-prompt and a new gather, and the database
    (every session with it) is left as it was. *)
Theorem missing_input_reprompts `{Json} `{OpenAI} (db : DB)
    (SpeechResult CallSid : option string) (now : Z) :
  SpeechResult = None ∨ SpeechResult = Some EmptyString
  ∨ CallSid = None ∨ CallSid = Some EmptyString →
  process_financial_request db SpeechResult CallSid now
  = (db, [Say did_not_catch None; Gather "speech" "/voice/financial/process" "POST"])
  ∧ Str.contains "didn't catch that" did_not_catch = true
  ∧ ∀ call_id,
      call_sessions (process_financial_request db SpeechResult CallSid now).1 !! call_id
      = call_sessions db !! call_id.
Proof.
  intros Hmissing.
  assert (Hguard : negb (truthy SpeechResult) || negb (truthy CallSid) = true).
  { destruct Hmissing as [-> | [-> | [-> | ->]]]; simpl; rewrite ?orb_true_r; done. }
  unfold process_financial_request. rewrite Hguard. by repeat split.
Qed.

Lemma missing_input_reprompts_witness :
  (@process_financial_request PyJson.python_json PyJson.demo_mode
     empty_db (Some EmptyString) (Some "CA1") 5).1 = empty_db
  ∧ (@process_financial_request PyJson.python_json PyJson.demo_mode
       empty_db (Some "my name is John Smith") None 5).1 = empty_db.
Proof.
  split.
  - destruct (@missing_input_reprompts PyJson.python_json PyJson.demo_mode
                empty_db (Some EmptyString) (Some "CA1") 5) as (-> & _); [|reflexivity].
    right. by left.
  - destruct (@missing_input_reprompts PyJson.python_json PyJson.demo_mode
                empty_db (Some "my name is John Smith") None 5) as (-> & _); [|reflexivity].
    right. right. by left.
Defined.

End StoreClaims.

(** ** The model on concrete inputs *)

Module Scenarios.
Import Database VoiceService FinancialService Main.

Example lower_mixed_case : Str.lower "My Card Was STOLEN" = "my card was stolen".
Proof. reflexivity. Qed.

Example split_runs_of_whitespace :
  Str.split "  my name   is john smith " = ["my"; "name"; "is"; "john"; "smith"].
Proof. reflexivity. Qed.

Example title_after_uncased : Str.title "john o'NEIL 3rd" = "John O'Neil 3Rd".
Proof. reflexivity. Qed.

Example phone_with_country_code :
  extract_phone_number "call +1 (555) 123-4567 please" = Some "+15551234567".
Proof. by vm_compute. Qed.

(** Ten digits that start with 1: the optional country code is given back
    and the digits are read as they stand. *)
Example phone_backtracks_country_code :
  extract_phone_number "1555123456" = Some "+11555123456".
Proof. by vm_compute. Qed.

Example email_in_sentence :
  extract_email "mail me at john.smith@example.co.uk please"
  = Some "john.smith@example.co.uk".
Proof. by vm_compute. Qed.

Example email_needs_two_letter_domain : extract_email "x@y.c" = None.
Proof. by vm_compute. Qed.

Example name_after_cue :
  _extract_with_fallback "hello this is mary ann jones" ∅ !! "name" = Some "Mary Ann".
Proof. by vm_compute. Qed.

Example stolen_card_is_urgent :
  priority (_fallback_intent_classification "my card was stolen, please help" "financial")
  = Some "URGENT"
  ∧ _determine_priority "my card was stolen, please help" = "URGENT".
Proof. split; by vm_compute. Qed.

Example account_question_is_medium :
  _fallback_intent_classification "what is my account balance" "financial"
  = {| intent := "ACCOUNT_INQUIRY"; priority := Some "MEDIUM"; confidence := 8 # 10 |}.
Proof. by vm_compute. Qed.

(** A call of two turns with the reference [json]: the name, then the number. *)
Example two_turn_call :
  (@process_financial_request PyJson.python_json PyJson.demo_mode
     empty_db (Some "my name is John Smith") (Some "CA1") 1).2
  = [Say "Thank you! And what's the best phone number for our team to reach you at?"
       (Some "Polly.Joanna");
     Gather "speech" "/voice/financial/process" "POST"]
  ∧ financial_inquiries
      (@run_call PyJson.python_json PyJson.demo_mode empty_db "CA1"
         [("my name is John Smith", 1%Z); ("555-123-4567", 2%Z)])
    = [ {| id := 1; customer_name := "John Smith"; phone := "+15551234567";
           email := None; reason := "my name is John Smith";
           Database.priority := MEDIUM; call_time := 2 |} ].
Proof. split; by vm_compute. Qed.

Example session_text_after_first_turn :
  session_data <$> call_sessions
    (@run_call PyJson.python_json PyJson.demo_mode empty_db "CA1"
       [("hello", 1%Z)]) !! "CA1"
  = Some (Some (PyJson.dumps (<["reason" := "hello"]> (<["priority" := "MEDIUM"]> ∅)))).
Proof. by vm_compute. Qed.

End Scenarios.

(** ** The reference [json] reads back what it prints *)

Module PyJsonFacts.
Import PyJson.

Lemma decode_escape_char (c : ascii) (s : string) :
  decode_string (escape_char c +:+ s)
  = '(body, rest) ← decode_string s; Some (String c body, rest).
Proof. by destruct c as [[] [] [] [] [] [] [] []]. Qed.

Lemma decode_escape (s rest : string) :
  decode_string (escape s +:+ String quote rest) = Some (s, rest).
Proof.
  induction s as [|c s IH]; [done|].
  simpl escape. rewrite StrFacts.app_assoc, decode_escape_char, IH. done.
Qed.

Lemma read_encoded (s rest : string) :
  read_string (encode_string s +:+ rest) = Some (s, rest).
Proof.
  unfold read_string, encode_string. rewrite StrFacts.app_cons. simpl.
  rewrite StrFacts.app_assoc. unfold str1.
  by rewrite StrFacts.app_cons, StrFacts.app_nil_l, decode_escape.
Qed.

Lemma read_after_space (s : string) : read_string (String " " s) = read_string s.
Proof. done. Qed.

Lemma read_members_space fuel acc (s : string) :
  read_members fuel acc (String " " s) = read_members fuel acc s.
Proof. by destruct fuel. Qed.

Definition add_item (acc : gmap string string) (kv : string * string) : gmap string string :=
  <[kv.1 := kv.2]> acc.

Lemma read_members_items (l : list (string * string)) :
  ∀ kv fuel acc,
    length l < fuel →
    read_members fuel acc (Str.join ", " (encode_item <$> kv :: l) +:+ "}")
    = Some (foldl add_item acc (kv :: l)).
Proof.
  induction l as [|kv' l IH]; intros [k v] fuel acc Hfuel;
    (destruct fuel as [|fuel]; [simpl in Hfuel; lia|]).
  - simpl. unfold encode_item. simpl.
    rewrite !StrFacts.app_assoc, read_encoded. simpl.
    rewrite ?StrFacts.app_cons, ?StrFacts.app_nil_l. simpl.
    rewrite read_after_space, read_encoded. done.
  - change (encode_item <$> (k, v) :: kv' :: l)
      with (encode_item (k, v) :: (encode_item <$> kv' :: l)).
    change (Str.join ", " (encode_item (k, v) :: (encode_item <$> kv' :: l)))
      with (encode_item (k, v) +:+ ", " +:+ Str.join ", " (encode_item <$> kv' :: l)).
    remember (Str.join ", " (encode_item <$> kv' :: l)) as tail eqn:Htail.
    unfold encode_item. cbn [fst snd read_members].
    rewrite !StrFacts.app_assoc, read_encoded. simpl.
    rewrite ?StrFacts.app_cons, ?StrFacts.app_nil_l. simpl.
    rewrite read_after_space, read_encoded. simpl.
    rewrite ?StrFacts.app_cons, ?StrFacts.app_nil_l. simpl.
    rewrite read_members_space. subst tail.
    rewrite IH; [done|]. simpl in Hfuel. lia.
Qed.

Lemma foldl_add_items (l : list (string * string)) :
  ∀ acc, NoDup l.*1 → foldl add_item acc l = list_to_map l ∪ acc.
Proof.
  induction l as [|[k v] l IH]; intros acc Hdup; simpl.
  - by rewrite (left_id_L ∅ (∪)).
  - apply NoDup_cons in Hdup as [Hk Hdup]. rewrite IH by done.
    unfold add_item. simpl. rewrite <- insert_union_r, insert_union_l; [done|].
    by apply not_elem_of_list_to_map_1.
Qed.

Lemma join_length (ws : list string) :
  length ws ≤ S (String.length (Str.join ", " ws)).
Proof.
  induction ws as [|w [|w' ws] IH]; simpl in *; [lia..|].
  rewrite !StrFacts.length_app. simpl. lia.
Qed.

Lemma loads_object (rest : string) :
  loads (String "{" (String quote rest))
  = read_members (S (S (String.length rest))) ∅ (String quote rest).
Proof. reflexivity. Qed.

(** [loads (dumps d) = d], and the text is never empty. *)
Lemma python_json_round_trip : FinancialTurn.json_round_trip python_json.
Proof.
  intros d. split; [done|]. simpl. unfold dumps.
  rewrite StrFacts.app_cons, StrFacts.app_nil_l.
  destruct (map_to_list d) as [|kv l] eqn:Hl.
  - apply map_to_list_empty_iff in Hl as ->. done.
  - assert (Hstart : ∃ rest, Str.join ", " (encode_item <$> kv :: l) +:+ "}"
                             = String quote rest).
    { destruct l; simpl; unfold encode_item, encode_string;
        rewrite ?StrFacts.app_assoc, StrFacts.app_cons; eauto. }
    destruct Hstart as [rest Hstart]. rewrite Hstart, loads_object, <- Hstart.
    rewrite read_members_items.
    + rewrite foldl_add_items, <- Hl, list_to_map_to_list, (right_id_L ∅ (∪)); [done|].
      rewrite <- Hl. apply NoDup_fst_map_to_list.
    + apply (f_equal String.length) in Hstart.
      rewrite StrFacts.length_app in Hstart. simpl in Hstart.
      pose proof (join_length (encode_item <$> kv :: l)) as Hlen.
      rewrite length_fmap in Hlen. simpl in *. lia.
Qed.

End PyJsonFacts.

(** ** More on the recognizers *)

Module RecognizerMore.
Import Regex VoiceService FinancialService.

Lemma take_length (n : nat) (s : string) : String.length (Str.take n s) ≤ n.
Proof.
  revert s. induction n as [|n IH]; intros [|c s]; simpl; try lia.
  specialize (IH s). lia.
Qed.

Lemma all_eq_one (a : ascii) (m : string) :
  Str.all (Char.eq a) m = true → String.length m = 1 → m = String a EmptyString.
Proof.
  destruct m as [|c [|d m]]; simpl; try done.
  rewrite andb_true_r. unfold Char.eq. by intros ->%Ascii.eqb_eq.
Qed.

(** What a match of the email pattern holds. *)
Lemma email_pattern_shape prev m rest c :
  matches email_pattern prev m rest c →
  ∃ local domain tld,
    m = local +:+ "@" +:+ domain +:+ "." +:+ tld
    ∧ Str.all local_part local = true ∧ 1 ≤ String.length local
    ∧ Str.all domain_part domain = true ∧ 1 ≤ String.length domain
    ∧ Str.all tld_part tld = true ∧ 2 ≤ String.length tld
    ∧ at_boundary prev (m +:+ rest) = true
    ∧ at_boundary (Str.last_char prev m) rest = true.
Proof.
  unfold email_pattern, at_least, lit. intros H.
  repeat match goal with
  | H : matches (Cat _ _) _ _ _ _ |- _ => inversion H; subst; clear H
  end.
  repeat match goal with
  | H : matches WordBoundary _ _ _ _ |- _ => inversion H; subst; clear H
  | H : matches (Chars _ _ _) _ _ _ _ |- _ => inversion H; subst; clear H
  end.
  repeat match goal with
  | H : ∀ h, Some _ = Some h → _ |- _ => specialize (H _ eq_refl)
  | H : ∀ h, None = Some h → _ |- _ => clear H
  end.
  repeat match goal with
  | Hall : Str.all (Char.eq ?a) ?x = true, Hlo : 1 ≤ String.length ?x,
    Hhi : String.length ?x ≤ 1 |- _ =>
      assert (x = String a EmptyString) as -> by (apply all_eq_one; [done|lia]);
      clear Hall Hlo Hhi
  end.
  rewrite !StrFacts.app_nil_l, ?StrFacts.app_nil_r in *.
  eexists _, _, _. split; [reflexivity|].
  repeat match goal with H : at_boundary _ _ = true |- _ => revert H end.
  rewrite ?StrFacts.app_nil_l, ?StrFacts.app_nil_r, ?StrFacts.last_char_app.
  rewrite ?StrFacts.app_assoc. intros Hend Hstart. simpl in *.
  repeat split; done.
Qed.

(** X1. An extracted email address is a piece of the text of the form
    local@domain.tld: a non-empty local part of letters, digits and [._%+-],
    a non-empty domain of letters, digits, dots and hyphens, and a last label
    of at least two letters (or bars), with a word boundary on either side. *)
Theorem extract_email_shape (text e : string) :
  extract_email text = Some e →
  ∃ pre post local domain tld,
    text = pre +:+ e +:+ post
    ∧ e = local +:+ "@" +:+ domain +:+ "." +:+ tld
    ∧ Str.all local_part local = true ∧ 1 ≤ String.length local
    ∧ Str.all domain_part domain = true ∧ 1 ≤ String.length domain
    ∧ Str.all tld_part tld = true ∧ 2 ≤ String.length tld
    ∧ at_boundary (Str.last_char None pre) (e +:+ post) = true
    ∧ at_boundary (Str.last_char None (pre +:+ e)) post = true.
Proof.
  unfold extract_email, search.
  destruct (search_from email_pattern None text) as [mt|] eqn:Hs; [|done].
  simpl. intros [= <-].
  apply RegexFacts.search_from_sound in Hs as (pre & rest & -> & Hm).
  apply RegexFacts.match_here_sound in Hm as (post & -> & Hm).
  apply email_pattern_shape in Hm
    as (local & domain & tld & He & ? & ? & ? & ? & ? & ? & Hb1 & Hb2).
  exists pre, post, local, domain, tld.
  rewrite StrFacts.last_char_app. by repeat split.
Qed.

Lemma extract_email_shape_witness :
  ∃ pre post local domain tld,
    "write to mary.jones@example.org today" = pre +:+ "mary.jones@example.org" +:+ post
    ∧ "mary.jones@example.org" = local +:+ "@" +:+ domain +:+ "." +:+ tld
    ∧ 2 ≤ String.length tld.
Proof.
  destruct (extract_email_shape "write to mary.jones@example.org today"
              "mary.jones@example.org")
    as (pre & post & local & domain & tld & H1 & H2 & _ & _ & _ & _ & _ & H3 & _);
    [by vm_compute|].
  by exists pre, post, local, domain, tld.
Defined.

(** X2. An utterance without the character @ holds no email address: the
    recognizer answers nothing and the extractor leaves the email field as
    it was. *)
Theorem no_at_sign_no_email (text : string) (known : gmap string string) :
  Str.contains "@" text = false →
  extract_email text = None
  ∧ _extract_with_fallback text known !! "email" = known !! "email".
Proof.
  intros Hno.
  assert (Hnone : extract_email text = None).
  { destruct (extract_email text) as [e|] eqn:He; [|done]. exfalso.
    unfold extract_email, search in He.
    destruct (search_from email_pattern None text) as [mt|] eqn:Hs; [|done].
    simpl in He. injection He as <-.
    apply RegexFacts.search_from_sound in Hs as (pre & rest & -> & Hm).
    apply RegexFacts.match_here_sound in Hm as (post & -> & Hm).
    apply email_pattern_shape in Hm as (local & domain & tld & He & _).
    rewrite He in Hno.
    rewrite !StrFacts.app_assoc, <- (StrFacts.app_assoc pre local) in Hno.
    by rewrite StrFacts.contains_app in Hno. }
  split; [done|]. by rewrite ExtractorFacts.fallback_email, Hnone.
Qed.

Lemma no_at_sign_no_email_witness :
  _extract_with_fallback "my address is mary at example dot org"
    {["email" := "mary@example.org"]} !! "email"
  = Some "mary@example.org".
Proof.
  destruct (no_at_sign_no_email "my address is mary at example dot org"
              {["email" := "mary@example.org"]}) as [_ ->]; [by vm_compute|].
  apply lookup_singleton_eq.
Defined.

(** X3. An utterance with fewer than ten digits holds no phone number: the
    recognizer answers nothing and the extractor leaves the phone field as
    it was. *)
Theorem few_digits_no_phone (text : string) (known : gmap string string) :
  String.length (Str.filter Char.is_digit text) < 10 →
  extract_phone_number text = None
  ∧ _extract_with_fallback text known !! "phone" = known !! "phone".
Proof.
  intros Hfew.
  assert (Hnone : extract_phone_number text = None).
  { destruct (extract_phone_number text) as [r|] eqn:Hr; [|done]. exfalso.
    apply RecognizerFacts.extract_phone_number_sound in Hr
      as (pre & m & post & digits & -> & _ & Hlen & _ & Hdig).
    rewrite !StrFacts.filter_app, !StrFacts.length_app in Hfew.
    destruct Hdig as [Hd|Hd]; rewrite Hd in Hfew;
      rewrite ?StrFacts.length_app in Hfew; simpl in Hfew; lia. }
  split; [done|]. by rewrite ExtractorFacts.fallback_phone, Hnone.
Qed.

Lemma few_digits_no_phone_witness :
  _extract_with_fallback "my member number is 1234567" {["phone" := "+15551234567"]}
    !! "phone"
  = Some "+15551234567".
Proof.
  destruct (few_digits_no_phone "my member number is 1234567"
              {["phone" := "+15551234567"]}) as [_ ->]; [vm_compute; lia|].
  apply lookup_singleton_eq.
Defined.

End RecognizerMore.

(** ** The name recognizer *)

Module NameFacts.
Import VoiceService FinancialService.

Definition cue_word (w : string) : Prop := Str.lower w ∈ ["is"; "am"].

Lemma app_nonempty (s : string) (c : ascii) : s +:+ String c EmptyString ≠ EmptyString.
Proof. by destruct s. Qed.

(** The words of [s.split()] are never empty. *)
Lemma split_from_nonempty (s : string) :
  ∀ cur w,
    (∀ v, cur = Some v → v ≠ EmptyString) →
    w ∈ Str.split_from cur s → w ≠ EmptyString.
Proof.
  induction s as [|c s IH]; intros cur w Hcur; simpl.
  - destruct cur as [v|]; [|by intros ?%elem_of_nil].
    intros ->%list_elem_of_singleton. by apply Hcur.
  - destruct (Char.isspace c).
    + destruct cur as [v|].
      * intros [->|Hw]%elem_of_cons; [by apply Hcur|]. by apply (IH None w).
      * by apply IH.
    + apply IH. intros v [= <-]. apply app_nonempty.
Qed.

Lemma title_from_length (s : string) :
  ∀ b, String.length (Str.title_from b s) = String.length s.
Proof. induction s as [|c s IH]; intros b; simpl; [done|]. by rewrite IH. Qed.

Lemma title_nonempty (s : string) : s ≠ EmptyString → Str.title s ≠ EmptyString.
Proof. by destruct s. Qed.

Lemma join_nonempty (w : string) (ws : list string) :
  w ≠ EmptyString → Str.join " " (w :: ws) ≠ EmptyString.
Proof. destruct w; [done|]. by destruct ws. Qed.

(** The loop either finds no cue word, or stops one past the first one. *)
Lemma name_start_from_spec (words : list string) :
  ∀ i,
    (name_start_from i words = (-1)%Z ∧ ∀ w, w ∈ words → ¬ cue_word w)
    ∨ ∃ before cue after,
        words = before ++ cue :: after
        ∧ cue_word cue
        ∧ (∀ w, w ∈ before → ¬ cue_word w)
        ∧ name_start_from i words = (i + Z.of_nat (length before) + 1)%Z.
Proof.
  induction words as [|word words IH]; intros i; simpl.
  - left. split; [done|]. by intros w ?%elem_of_nil.
  - case_bool_decide as Hcue.
    + right. exists [], word, words. repeat split; [done| |simpl; lia].
      by intros w ?%elem_of_nil.
    + destruct (IH (i + 1)%Z) as [[Hnone Hall]|(before & cue & after & -> & ? & Hb & Hi)].
      * left. split; [done|]. by intros w [->|?]%elem_of_cons; [|apply Hall].
      * right. exists (word :: before), cue, after. repeat split; [done| |].
        -- by intros w [->|?]%elem_of_cons; [|apply Hb].
        -- rewrite Hi. simpl length. lia.
Qed.

(** X4. While the name is unset, the extractor writes a name exactly when
    the lower-cased utterance holds one of the cue phrases and the first word
    that is "is" or "am" (in any case) is followed by another word: the name
    is then the one or two words after it, joined by a space and title-cased,
    and it is never empty.  In every other case the name field is left as it
    was. *)
Theorem name_recognizer_spec (text : string) (known : gmap string string) :
  truthy (known !! "name") = false →
  (∀ before cue first rest,
     Str.contains_any name_cues (Str.lower text) = true →
     Str.split text = before ++ cue :: first :: rest →
     cue_word cue →
     (∀ w, w ∈ before → ¬ cue_word w) →
     _extract_with_fallback text known !! "name"
     = Some (Str.title (Str.join " " (first :: take 1 rest)))
     ∧ truthy (_extract_with_fallback text known !! "name") = true)
  ∧ (_extract_with_fallback text known !! "name" = known !! "name"
     ∨ ∃ before cue first rest,
         Str.contains_any name_cues (Str.lower text) = true
         ∧ Str.split text = before ++ cue :: first :: rest
         ∧ cue_word cue
         ∧ (∀ w, w ∈ before → ¬ cue_word w)).
Proof.
  intros Hunset.
  assert (Hname : _extract_with_fallback text known !! "name"
    = if Str.contains_any name_cues (Str.lower text)
      then
        if ((0 <? name_start_from 0 (Str.split text))
            && (name_start_from 0 (Str.split text)
                <? Z.of_nat (length (Str.split text))))%Z
        then Some (Str.title (Str.join " "
               (take 2 (drop (Z.to_nat (name_start_from 0 (Str.split text)))
                          (Str.split text)))))
        else known !! "name"
      else known !! "name").
  { unfold _extract_with_fallback. cbv zeta. rewrite Hunset. simpl negb. cbv iota.
    destruct (Str.contains_any name_cues (Str.lower text)); simpl andb; cbv iota;
      repeat case_match;
      repeat first [rewrite lookup_insert_eq | rewrite lookup_insert_ne by discriminate];
      done. }
  split.
  - intros before cue first rest Hcues Hsplit Hcue Hbefore.
    assert (Hstart : name_start_from 0 (Str.split text)
                     = (Z.of_nat (length before) + 1)%Z).
    { destruct (name_start_from_spec (Str.split text) 0)
        as [[_ Hall]|(before' & cue' & after' & Hsplit' & Hcue' & Hbefore' & ->)].
      - exfalso. apply (Hall cue); [|done]. rewrite Hsplit.
        apply elem_of_app. right. apply elem_of_cons. by left.
      - rewrite Hsplit in Hsplit'.
        destruct (decide (length before = length before')) as [Heq|Hne]; [lia|].
        exfalso.
        assert (Hlt : length before < length before' ∨ length before' < length before)
          by lia.
        destruct Hlt as [Hlt|Hlt].
        + apply (Hbefore' cue); [|done].
          apply list_elem_of_lookup. exists (length before).
          apply (f_equal (λ l, l !! length before)) in Hsplit'.
          rewrite lookup_app_r, Nat.sub_diag in Hsplit' by lia. simpl in Hsplit'.
          by rewrite lookup_app_l in Hsplit' by lia.
        + apply (Hbefore cue'); [|done].
          apply list_elem_of_lookup. exists (length before').
          apply (f_equal (λ l, l !! length before')) in Hsplit'.
          rewrite (lookup_app_r before'), Nat.sub_diag in Hsplit' by lia.
          simpl in Hsplit'. by rewrite lookup_app_l in Hsplit' by lia. }
    rewrite Hname, Hcues, Hstart, Hsplit.
    replace ((0 <? Z.of_nat (length before) + 1)%Z) with true
      by (symmetry; apply Z.ltb_lt; lia).
    replace ((Z.of_nat (length before) + 1
              <? Z.of_nat (length (before ++ cue :: first :: rest)))%Z) with true
      by (symmetry; apply Z.ltb_lt; rewrite length_app; simpl; lia).
    simpl andb. cbv iota.
    replace (Z.to_nat (Z.of_nat (length before) + 1)) with (length (before ++ [cue]))
      by (rewrite length_app; simpl; lia).
    replace (before ++ cue :: first :: rest) with ((before ++ [cue]) ++ first :: rest)
      by (by rewrite <- (assoc_L (++))).
    rewrite drop_app_length.
    split; [done|].
    assert (Hfirst : first ≠ EmptyString).
    { apply (split_from_nonempty text None); [done|].
      fold (Str.split text). rewrite Hsplit.
      apply elem_of_app. right. apply elem_of_cons. right. apply elem_of_cons. by left. }
    pose proof (title_nonempty _ (join_nonempty first (take 1 rest) Hfirst)) as Hne.
    change (take 2 (first :: rest)) with (first :: take 1 rest).
    by destruct (Str.title (Str.join " " (first :: take 1 rest))).
  - rewrite Hname.
    destruct (Str.contains_any name_cues (Str.lower text)) eqn:Hcues; [|by left].
    destruct (name_start_from_spec (Str.split text) 0)
      as [[-> _]|(before & cue & after & Hsplit & Hcue & Hbefore & ->)]; [by left|].
    destruct after as [|first rest].
    + left. rewrite Hsplit, length_app. simpl length.
      replace ((0 + Z.of_nat (length before) + 1 <? Z.of_nat (length before + 1))%Z)
        with false by (symmetry; apply Z.ltb_ge; lia).
      by rewrite andb_false_r.
    + right. by exists before, cue, first, rest.
Qed.

Lemma name_recognizer_spec_witness :
  _extract_with_fallback "hello this is mary ann jones" ∅ !! "name" = Some "Mary Ann".
Proof.
  destruct (name_recognizer_spec "hello this is mary ann jones" ∅) as [Hset _];
    [by vm_compute|].
  destruct (Hset ["hello"; "this"] "is" "mary" ["ann"; "jones"]) as [-> _];
    [by vm_compute|by vm_compute| | |by vm_compute].
  - apply elem_of_cons. by left.
  - intros w Hw Hcue. apply (bool_decide_pack _) in Hcue.
    apply elem_of_cons in Hw as [->|Hw]; [by vm_compute in Hcue|].
    apply list_elem_of_singleton in Hw as ->. by vm_compute in Hcue.
Defined.

End NameFacts.

(** ** Priorities, intents and canned replies *)

Module KeywordFacts.
Import VoiceService FinancialService Replies.

(** [any(k in s.lower() for k in ks)] says that [s] mentions one of [ks]. *)
Lemma contains_any_mentions (ks : list string) (s : string) :
  Str.contains_any ks (Str.lower s) = true ↔ ∃ k, k ∈ ks ∧ Str.mentions k s.
Proof.
  split.
  - intros (k & Hk & Hc)%existsb_exists. exists k. split.
    + by apply list_elem_of_In.
    + by apply StrFacts.mentions_of_contains.
  - intros (k & Hk & Hm).
    apply (StrFacts.contains_any_intro ks k _ Hk). by apply StrFacts.contains_lower.
Qed.

Lemma contains_any_none (ks : list string) (s : string) :
  Str.contains_any ks (Str.lower s) = false ↔ ∀ k, k ∈ ks → ¬ Str.mentions k s.
Proof.
  rewrite <- not_true_iff_false, contains_any_mentions. split.
  - intros Hno k Hk Hm. apply Hno. by exists k.
  - intros Hno (k & Hk & Hm). by apply (Hno k).
Qed.

Lemma contains_any_subset (ks ks' : list string) (s : string) :
  ks ⊆ ks' → Str.contains_any ks s = true → Str.contains_any ks' s = true.
Proof.
  intros Hsub (k & Hk & Hc)%existsb_exists. apply existsb_exists. exists k.
  split; [|done]. apply list_elem_of_In, Hsub. by apply list_elem_of_In.
Qed.

(** X5. The priority of an utterance: URGENT when it mentions an urgent
    keyword, whatever else it mentions; HIGH when it mentions a high-priority
    keyword and no urgent one; MEDIUM otherwise.  LOW is never derived. *)
Theorem determine_priority_spec (text : string) :
  ((∃ k, k ∈ urgent_keywords ∧ Str.mentions k text) →
   _determine_priority text = "URGENT")
  ∧ ((∀ k, k ∈ urgent_keywords → ¬ Str.mentions k text) →
     (∃ k, k ∈ high_keywords ∧ Str.mentions k text) →
     _determine_priority text = "HIGH")
  ∧ ((∀ k, k ∈ urgent_keywords → ¬ Str.mentions k text) →
     (∀ k, k ∈ high_keywords → ¬ Str.mentions k text) →
     _determine_priority text = "MEDIUM")
  ∧ _determine_priority text ≠ "LOW".
Proof.
  unfold _determine_priority.
  split; [|split; [|split]].
  - intros Hu%contains_any_mentions. by rewrite Hu.
  - intros Hu%contains_any_none Hh%contains_any_mentions. by rewrite Hu, Hh.
  - intros Hu%contains_any_none Hh%contains_any_none. by rewrite Hu, Hh.
  - by destruct (Str.contains_any urgent_keywords (Str.lower text)),
      (Str.contains_any high_keywords (Str.lower text)).
Qed.

Lemma determine_priority_spec_witness :
  _determine_priority "My payment is due and my card was Stolen" = "URGENT".
Proof.
  destruct (determine_priority_spec "My payment is due and my card was Stolen")
    as [Hurgent _].
  apply Hurgent. exists "stolen". split.
  - apply elem_of_cons. right. apply elem_of_cons. by left.
  - by exists "My payment is due and my card was ", "Stolen", EmptyString.
Defined.

(** X6. Whenever the keyword classifier gives an utterance priority URGENT
    in the financial context, the priority stored by the extractor for the
    same utterance is URGENT too: the classifier's urgent words are among the
    extractor's. *)
Theorem classifier_urgent_is_extractor_urgent (text : string) :
  priority (_fallback_intent_classification text "financial") = Some "URGENT" →
  _determine_priority text = "URGENT".
Proof.
  unfold _fallback_intent_classification, _determine_priority.
  change (String.eqb "financial" "restaurant") with false.
  change (String.eqb "financial" "financial") with true. cbv iota.
  destruct (Str.contains_any financial_urgent_words (Str.lower text)) eqn:Hu.
  - intros _.
    rewrite (contains_any_subset financial_urgent_words urgent_keywords (Str.lower text));
      [done| |done].
    intros k Hk. unfold financial_urgent_words in Hk. unfold urgent_keywords.
    rewrite !elem_of_cons in Hk. rewrite !elem_of_cons. tauto.
  - by repeat case_match.
Qed.

Lemma classifier_urgent_is_extractor_urgent_witness :
  _determine_priority "someone got my card, unauthorized charges everywhere" = "URGENT".
Proof.
  apply (classifier_urgent_is_extractor_urgent
           "someone got my card, unauthorized charges everywhere").
  by vm_compute.
Defined.

(** X7. In the restaurant context the keyword rule routes an utterance that
    mentions a reservation word to RESERVATION whatever else it mentions, one
    with a menu word and no reservation word to MENU_INQUIRY, one with only
    an hours or location word to HOURS_LOCATION, each with confidence 0.8,
    and any other utterance to OTHER with confidence 0.5; no priority is
    given. *)
Theorem restaurant_intent_precedence (text : string) :
  let none ks := ∀ k, k ∈ ks → ¬ Str.mentions k text in
  let some ks := ∃ k, k ∈ ks ∧ Str.mentions k text in
  (some restaurant_reservation_words →
   _fallback_intent_classification text "restaurant"
   = {| intent := "RESERVATION"; priority := None; confidence := 8 # 10 |})
  ∧ (none restaurant_reservation_words → some restaurant_menu_words →
     _fallback_intent_classification text "restaurant"
     = {| intent := "MENU_INQUIRY"; priority := None; confidence := 8 # 10 |})
  ∧ (none restaurant_reservation_words → none restaurant_menu_words →
     some restaurant_hours_words →
     _fallback_intent_classification text "restaurant"
     = {| intent := "HOURS_LOCATION"; priority := None; confidence := 8 # 10 |})
  ∧ (none restaurant_reservation_words → none restaurant_menu_words →
     none restaurant_hours_words →
     _fallback_intent_classification text "restaurant"
     = {| intent := "OTHER"; priority := None; confidence := 5 # 10 |}).
Proof.
  intros none some. unfold none, some, _fallback_intent_classification.
  change (String.eqb "restaurant" "restaurant") with true. cbv iota.
  split; [|split; [|split]].
  - intros H1%contains_any_mentions. by rewrite H1.
  - intros H1%contains_any_none H2%contains_any_mentions. by rewrite H1, H2.
  - intros H1%contains_any_none H2%contains_any_none H3%contains_any_mentions.
    by rewrite H1, H2, H3.
  - intros H1%contains_any_none H2%contains_any_none H3%contains_any_none.
    by rewrite H1, H2, H3.
Qed.

Lemma restaurant_intent_precedence_witness :
  intent (_fallback_intent_classification
            "What is the price of a TABLE for two, are you open?" "restaurant")
  = "RESERVATION".
Proof.
  destruct (restaurant_intent_precedence
              "What is the price of a TABLE for two, are you open?") as [Hres _].
  rewrite Hres; [done|]. exists "table". split.
  - apply elem_of_cons. right. apply elem_of_cons. right. apply elem_of_cons. by left.
  - by exists "What is the price of a ", "TABLE", " for two, are you open?".
Defined.

(** X8. The keyword rule gives a priority exactly in the financial context,
    and then URGENT or MEDIUM, never HIGH or LOW; a context that is neither
    "restaurant" nor "financial" always gives intent OTHER with confidence
    0.5; the confidence is 0.5 for the two catch-all intents and 0.8 for
    every other. *)
Theorem classification_by_context (text context : string) :
  let c := _fallback_intent_classification text context in
  (context = "financial" → priority c = Some "URGENT" ∨ priority c = Some "MEDIUM")
  ∧ (context ≠ "financial" → priority c = None)
  ∧ (context ≠ "restaurant" → context ≠ "financial" →
     c = {| intent := "OTHER"; priority := None; confidence := 5 # 10 |})
  ∧ (confidence c = 5 # 10 ∧ (intent c = "OTHER" ∨ intent c = "GENERAL")
     ∨ confidence c = 8 # 10 ∧ intent c ≠ "OTHER" ∧ intent c ≠ "GENERAL").
Proof.
  intros c. unfold c, _fallback_intent_classification.
  destruct (String.eqb_spec context "restaurant") as [->|Hr];
    [|destruct (String.eqb_spec context "financial") as [->|Hf]].
  - repeat split; try done; repeat case_match; simpl; auto.
  - repeat split; try done; repeat case_match; simpl; auto.
  - repeat split; try done; simpl; auto.
Qed.

Lemma classification_by_context_witness :
  _fallback_intent_classification "my card was stolen" "insurance"
  = {| intent := "OTHER"; priority := None; confidence := 5 # 10 |}.
Proof.
  destruct (classification_by_context "my card was stolen" "insurance")
    as (_ & _ & Hother & _).
  by apply Hother.
Defined.

End KeywordFacts.

(** ** Classification and replies with and without the model *)

Module ReplyFacts.
Import VoiceService FinancialService Replies.

(** X9. For a context that is neither "restaurant" nor "financial" the
    model is never the source of an answer, switched on or not:
    [classify_intent] gives the keyword rule's OTHER with confidence 0.5 and
    [generate_smart_response] gives the generic greeting. *)
Theorem unknown_context_bypasses_model `{OpenAI} `{ChatModel}
    (user_speech context : string) (d : intent_data) :
  context ≠ "restaurant" → context ≠ "financial" →
  classify_intent user_speech context
  = inl {| intent := "OTHER"; priority := None; confidence := 5 # 10 |}
  ∧ generate_smart_response d user_speech context
    = "Thank you for calling. How can I help you today?".
Proof.
  intros Hr Hf.
  assert (Hunknown : known_context context = false).
  { unfold known_context. apply orb_false_iff. by split; apply String.eqb_neq. }
  assert (Hrule : _fallback_intent_classification user_speech context
                  = {| intent := "OTHER"; priority := None; confidence := 5 # 10 |}).
  { unfold _fallback_intent_classification.
    destruct (String.eqb_spec context "restaurant") as [?|_]; [done|].
    by destruct (String.eqb_spec context "financial") as [?|_]. }
  assert (Hreply : ∀ i, _generate_fallback_response i context
                        = "Thank you for calling. How can I help you today?").
  { intros i. unfold _generate_fallback_response.
    apply String.eqb_neq in Hr, Hf. by rewrite Hr, Hf. }
  split.
  - unfold classify_intent. rewrite Hunknown, Hrule. by destruct openai_enabled.
  - unfold generate_smart_response, _generate_ai_response.
    rewrite Hunknown, Hreply. by destruct openai_enabled.
Qed.

(** A model that is switched on and answers everything. *)
#[local] Instance eager_extractor : OpenAI :=
  {| openai_enabled := true; openai_fields := fun _ _ => Some ∅ |}.

#[local] Instance eager_chat : ChatModel :=
  {| classification := string;
     classify_completion := fun _ _ => Some "RESERVATION";
     classification_intent := fun r => Some r;
     classification_priority := fun _ => None;
     reply_completion := fun _ _ _ _ => Some "Of course!" |}.

Lemma unknown_context_bypasses_model_witness :
  @generate_smart_response eager_extractor eager_chat
    (@classify_intent eager_extractor eager_chat "book a table" "hotel")
    "book a table" "hotel"
  = "Thank you for calling. How can I help you today?".
Proof.
  by destruct (@unknown_context_bypasses_model eager_extractor eager_chat
                 "book a table" "hotel"
                 (@classify_intent eager_extractor eager_chat "book a table" "hotel"))
    as [_ ->].
Defined.

(** X10. Without the model, the reply to the keyword rule's own
    classification is always the canned reply that the context's table holds
    for the classified intent: the generic default "How can I help you
    today?" is never reached in the restaurant and financial contexts. *)
Theorem keyword_reply_is_canned `{OpenAI} `{ChatModel} (user_speech context : string) :
  openai_enabled = false →
  let c := _fallback_intent_classification user_speech context in
  classify_intent user_speech context = inl c
  ∧ (context = "restaurant" →
     restaurant_responses !! intent c
     = Some (generate_smart_response (inl c) user_speech context))
  ∧ (context = "financial" →
     financial_responses !! intent c
     = Some (generate_smart_response (inl c) user_speech context)).
Proof.
  intros Hoff c.
  split; [unfold classify_intent; by rewrite Hoff|].
  unfold generate_smart_response. rewrite Hoff. unfold c. simpl get_intent.
  split; intros ->; unfold _fallback_intent_classification, _generate_fallback_response;
    simpl String.eqb; cbv iota; by repeat case_match.
Qed.

Lemma keyword_reply_is_canned_witness :
  @generate_smart_response PyJson.demo_mode eager_chat
    (inl (_fallback_intent_classification "I need a mortgage" "financial"))
    "I need a mortgage" "financial"
  = "I'll be happy to help with your loan inquiry. Let me get your contact information for our lending team.".
Proof.
  destruct (@keyword_reply_is_canned PyJson.demo_mode eager_chat
              "I need a mortgage" "financial" eq_refl) as (_ & _ & Hfin).
  specialize (Hfin eq_refl).
  apply (inj Some). rewrite <- Hfin. by vm_compute.
Defined.

(** X11. The reply of the keyword tables to an intent they do not hold, or
    to a classification without an intent.  In the restaurant context every
    intent but RESERVATION, MENU_INQUIRY and HOURS_LOCATION gets the OTHER
    reply.  In the financial context, whose table has no OTHER entry, every
    intent but its four keys (OTHER among them) gets the generic "How can I
    help you today?". *)
Theorem reply_to_unlisted_intent (intent_key : option string) :
  ((∀ i, intent_key = Some i → i ∉ ["RESERVATION"; "MENU_INQUIRY"; "HOURS_LOCATION"]) →
   restaurant_responses !! "OTHER"
   = Some (_generate_fallback_response intent_key "restaurant"))
  ∧ ((∀ i, intent_key = Some i →
           i ∉ ["ACCOUNT_INQUIRY"; "LOAN_APPLICATION"; "TECHNICAL_ISSUE"; "GENERAL"]) →
     _generate_fallback_response intent_key "financial" = "How can I help you today?").
Proof.
  unfold _generate_fallback_response. simpl String.eqb. cbv iota.
  split; intros Hnot.
  - destruct intent_key as [i|]; simpl default; [|done].
    specialize (Hnot i eq_refl).
    destruct (decide (i = "OTHER")) as [-> | Hother]; [done|].
    assert (Hri : restaurant_responses !! i = None).
    { unfold restaurant_responses. simpl.
      repeat (rewrite lookup_insert_ne;
              [|intros <-; first [by apply Hother
                                 |apply Hnot; rewrite !elem_of_cons; tauto]]).
      apply lookup_empty. }
    unfold pick_response. by rewrite Hri.
  - assert (Hfi : financial_responses !! default "OTHER" intent_key = None).
    { destruct intent_key as [i|]; simpl default; [|done].
      specialize (Hnot i eq_refl).
      unfold financial_responses. simpl.
      repeat (rewrite lookup_insert_ne;
              [|intros <-; apply Hnot; rewrite !elem_of_cons; tauto]).
      apply lookup_empty. }
    unfold pick_response. by rewrite Hfi.
Qed.

(** An intent of the restaurant table, asked for in the financial context. *)
Lemma reply_to_unlisted_intent_witness :
  _generate_fallback_response (Some "OTHER") "financial" = "How can I help you today?".
Proof.
  destruct (reply_to_unlisted_intent (Some "OTHER")) as [_ Hfin]. apply Hfin.
  intros i [= <-]. rewrite !elem_of_cons, elem_of_nil.
  intros [?|[?|[?|[?|[]]]]]; discriminate.
Defined.

End ReplyFacts.

(** ** The entry routes and the restaurant route *)

Module RouteFacts.
Import Config VoiceService FinancialService Replies Routes.

(** X12. Business hours are the weekdays (Monday to Friday) from the start
    hour up to, and not including, the end hour.  On a Saturday or Sunday,
    and at any time when the configured start hour is not before the end
    hour (an overnight window, say), the financial entry route takes the
    after-hours branch: it greets and gathers speech for
    [/voice/financial/process] instead of dialling. *)
Theorem after_hours_entry (settings : Settings) (hour weekday : Z) :
  (5 ≤ weekday ∨ BUSINESS_HOURS_END settings ≤ BUSINESS_HOURS_START settings
   ∨ hour < BUSINESS_HOURS_START settings ∨ BUSINESS_HOURS_END settings ≤ hour)%Z →
  FinancialTurn.is_business_hours settings hour weekday = false
  ∧ ∃ greeting,
      financial_voice_handler settings hour weekday
      = [ Say greeting joanna;
          Gather "speech" (Some 5%Z) (Some 3%Z) "/voice/financial/process" "POST" ].
Proof.
  intros Hclosed.
  assert (Hoff : FinancialTurn.is_business_hours settings hour weekday = false).
  { unfold FinancialTurn.is_business_hours. cbv zeta.
    apply not_true_iff_false. rewrite !andb_true_iff, Z.ltb_lt, Z.leb_le, Z.ltb_lt. lia. }
  split; [done|]. unfold financial_voice_handler. rewrite Hoff. eauto.
Qed.

(** Saturday noon with the default hours, and a night shift on a Tuesday. *)
Lemma after_hours_entry_witness :
  FinancialTurn.is_business_hours defaults 12 5 = false
  ∧ FinancialTurn.is_business_hours
      {| TWILIO_ACCOUNT_SID := EmptyString; TWILIO_AUTH_TOKEN := EmptyString;
         TWILIO_PHONE_NUMBER := EmptyString; OPENAI_API_KEY := EmptyString;
         RESTAURANT_NAME := "Restaurant"; RESTAURANT_PHONE := EmptyString;
         CREDIT_UNION_NAME := "Credit Union";
         BUSINESS_HOURS_START := 22; BUSINESS_HOURS_END := 6;
         ONCALL_STAFF_PHONE := EmptyString |} 23 1 = false.
Proof.
  split.
  - apply (after_hours_entry defaults 12 5). left. lia.
  - apply after_hours_entry. right. left. simpl. lia.
Defined.

(** X13. During business hours the financial entry route only announces
    the transfer and dials: it gathers no speech, so no turn of the
    collection flow follows. *)
Theorem business_hours_entry (settings : Settings) (hour weekday : Z) :
  (weekday < 5)%Z →
  (BUSINESS_HOURS_START settings ≤ hour < BUSINESS_HOURS_END settings)%Z →
  ∃ announcement,
    financial_voice_handler settings hour weekday
    = [ Say announcement None; Dial (RESTAURANT_PHONE settings) ].
Proof.
  intros Hday [Hfrom Hto]. unfold financial_voice_handler.
  replace (FinancialTurn.is_business_hours settings hour weekday) with true; [eauto|].
  symmetry. unfold FinancialTurn.is_business_hours. cbv zeta.
  rewrite !andb_true_iff, Z.ltb_lt, Z.leb_le, Z.ltb_lt. lia.
Qed.

Lemma business_hours_entry_witness :
  ∃ announcement,
    financial_voice_handler defaults 9 0
    = [ Say announcement None; Dial EmptyString ].
Proof. apply (business_hours_entry defaults 9 0); simpl; lia. Defined.

Section Restaurant.
Context {DB : Type} `{OpenAI} `{ChatModel} `{RestaurantService DB}.

(** X14. A restaurant request without an utterance (absent or empty) or
    without a call id is answered with the re-prompt and a gather; the
    restaurant service is not called and the database is left as it was. *)
Theorem restaurant_missing_input (settings : Settings) (db : DB)
    (SpeechResult CallSid : option string) :
  SpeechResult = None ∨ SpeechResult = Some EmptyString
  ∨ CallSid = None ∨ CallSid = Some EmptyString →
  process_restaurant_request settings db SpeechResult CallSid
  = (db, [ Say "I'm sorry, I didn't catch that. Could you please repeat your request?" None;
           Gather "speech" None None "/voice/restaurant/process" "POST" ]).
Proof.
  intros Hmissing.
  assert (Hguard : negb (truthy SpeechResult) || negb (truthy CallSid) = true).
  { destruct Hmissing as [-> | [-> | [-> | ->]]]; simpl; rewrite ?orb_true_r; done. }
  unfold process_restaurant_request. by rewrite Hguard.
Qed.

(** X15. Without the model, an utterance that mentions none of the
    reservation, menu and hours words gets the canned OTHER reply and a
    gather; the restaurant service is not called and the database is left as
    it was. *)
Theorem restaurant_small_talk (settings : Settings) (db : DB) (speech call_sid : string) :
  openai_enabled = false →
  speech ≠ EmptyString → call_sid ≠ EmptyString →
  (∀ k, k ∈ restaurant_reservation_words ++ restaurant_menu_words
            ++ restaurant_hours_words → ¬ Str.mentions k speech) →
  process_restaurant_request settings db (Some speech) (Some call_sid)
  = (db, [ Say "I'm here to help with reservations, menu questions, or restaurant information. What can I assist you with?"
               joanna;
           Gather "speech" None None "/voice/restaurant/process" "POST" ]).
Proof.
  intros Hoff Hspeech Hsid Hnone.
  assert (Hc : _fallback_intent_classification speech "restaurant"
               = {| intent := "OTHER"; priority := None; confidence := 5 # 10 |}).
  { unfold _fallback_intent_classification.
    change (String.eqb "restaurant" "restaurant") with true. cbv iota.
    rewrite (proj2 (KeywordFacts.contains_any_none restaurant_reservation_words speech)),
      (proj2 (KeywordFacts.contains_any_none restaurant_menu_words speech)),
      (proj2 (KeywordFacts.contains_any_none restaurant_hours_words speech)); [done|..];
      intros k Hk; apply Hnone; rewrite !elem_of_app; auto. }
  assert (Hts : truthy (Some speech) = true) by (by destruct speech).
  assert (Htc : truthy (Some call_sid) = true) by (by destruct call_sid).
  unfold process_restaurant_request. rewrite Hts, Htc. cbn [negb orb].
  change (default EmptyString (Some speech)) with speech.
  unfold classify_intent, generate_smart_response. rewrite Hoff. cbn [negb].
  by rewrite Hc.
Qed.

(** X16. Every answer of the restaurant route keeps the call going or hands
    it over: it ends with a gather for [/voice/restaurant/process], or it is
    the single confirmation of a completed reservation, or it is the apology
    followed by the transfer to the restaurant's number. *)
Theorem restaurant_reply_shape (settings : Settings) (db : DB)
    (SpeechResult CallSid : option string) :
  let response := (process_restaurant_request settings db SpeechResult CallSid).2 in
  last response = Some gather_restaurant
  ∨ (∃ reply, response = [Say reply joanna])
  ∨ response = transfer_to_hostess settings.
Proof.
  unfold process_restaurant_request.
  destruct (negb (truthy SpeechResult) || negb (truthy CallSid)); [by left|].
  cbv zeta.
  repeat match goal with
  | |- context [if ?b then _ else _] => destruct b
  | |- context [handle_reservation_request ?d ?s ?c] =>
      destruct (handle_reservation_request d s c) as [? [[? []]|]]
  | |- context [handle_menu_inquiry ?d ?s] =>
      destruct (handle_menu_inquiry d s) as [? [?|]]
  end; simpl; eauto.
Qed.

End Restaurant.

(** A restaurant service that confirms every reservation at once, over a
    database that counts the reservations made. *)
#[local] Instance counting_service : RestaurantService nat :=
  {| handle_reservation_request := fun n _ _ => (S n, Some ("Your table is booked.", true));
     handle_menu_inquiry := fun n _ => (n, Some "We serve salmon.") |}.

Lemma restaurant_missing_input_witness :
  @process_restaurant_request nat PyJson.demo_mode ReplyFacts.eager_chat counting_service
    defaults 3 None (Some "CA7")
  = (3, [ Say "I'm sorry, I didn't catch that. Could you please repeat your request?" None;
          Gather "speech" None None "/voice/restaurant/process" "POST" ]).
Proof.
  apply (@restaurant_missing_input nat PyJson.demo_mode ReplyFacts.eager_chat
           counting_service defaults 3 None (Some "CA7")).
  by left.
Defined.

Lemma restaurant_small_talk_witness :
  (@process_restaurant_request nat PyJson.demo_mode ReplyFacts.eager_chat counting_service
     defaults 3 (Some "good evening") (Some "CA7")).1 = 3.
Proof.
  rewrite (@restaurant_small_talk nat PyJson.demo_mode ReplyFacts.eager_chat
             counting_service defaults 3 "good evening" "CA7"); [done..|].
  intros k Hk Hm. apply StrFacts.contains_lower in Hm.
  apply (StrFacts.contains_any_intro _ k _ Hk) in Hm. by vm_compute in Hm.
Defined.

End RouteFacts.

(** ** Staff notifications *)

Module NotificationFacts.
Import Database Config FinancialService NotificationService FinancialTurn.

Lemma value_length (p : InquiryPriority) : String.length (value p) ≤ 6.
Proof. destruct p; simpl; lia. Qed.

Lemma notification_sent (settings : Settings) (client : bool) (inquiry : FinancialInquiry) :
  priority inquiry = URGENT ∨ priority inquiry = HIGH →
  nonempty (ONCALL_STAFF_PHONE settings) = true → client = true →
  send_staff_notification settings client inquiry
  = [ {| to := ONCALL_STAFF_PHONE settings;
         from_ := TWILIO_PHONE_NUMBER settings;
         body := urgent_message inquiry |} ].
Proof.
  unfold send_staff_notification, send_urgent_sms, send_sms.
  intros Hp -> ->. by destruct Hp as [-> | ->].
Qed.

Lemma notification_withheld (settings : Settings) (client : bool) (inquiry : FinancialInquiry) :
  priority inquiry = MEDIUM ∨ priority inquiry = LOW
  ∨ nonempty (ONCALL_STAFF_PHONE settings) = false ∨ client = false →
  send_staff_notification settings client inquiry = [].
Proof.
  unfold send_staff_notification, send_urgent_sms, send_sms.
  intros [-> | [-> | [-> | ->]]]; try done.
  - by rewrite andb_false_r.
  - by destruct (_ && _).
Qed.

(** X17. A new inquiry pages the on-call staff exactly when its priority is
    URGENT or HIGH, an on-call number is configured and a Twilio client
    exists: one message, sent to the on-call number from the service's own
    number.  Otherwise nothing is sent.  The message quotes at most the first
    100 characters of the reason, so its length is bounded by 157 plus the
    lengths of the caller's name and phone number. *)
Theorem staff_page_rule (settings : Settings) (client : bool) (inquiry : FinancialInquiry) :
  ((priority inquiry = URGENT ∨ priority inquiry = HIGH) →
   nonempty (ONCALL_STAFF_PHONE settings) = true → client = true →
   send_staff_notification settings client inquiry
   = [ {| to := ONCALL_STAFF_PHONE settings;
          from_ := TWILIO_PHONE_NUMBER settings;
          body := urgent_message inquiry |} ])
  ∧ (priority inquiry = MEDIUM ∨ priority inquiry = LOW
     ∨ nonempty (ONCALL_STAFF_PHONE settings) = false ∨ client = false →
     send_staff_notification settings client inquiry = [])
  ∧ String.length (urgent_message inquiry)
    ≤ 157 + String.length (customer_name inquiry) + String.length (phone inquiry).
Proof.
  split; [|split].
  - apply notification_sent.
  - apply notification_withheld.
  - unfold urgent_message. rewrite !StrFacts.length_app.
    pose proof (value_length (priority inquiry)).
    pose proof (RecognizerMore.take_length 100 (reason inquiry)).
    change (String.length "URGENT: New ") with 12.
    change (String.length " priority inquiry from ") with 23.
    change (String.length " (") with 2.
    change (String.length "). Reason: ") with 11.
    change (String.length "...") with 3.
    lia.
Qed.

Lemma staff_page_rule_witness :
  send_staff_notification
    {| TWILIO_ACCOUNT_SID := "AC1"; TWILIO_AUTH_TOKEN := "token";
       TWILIO_PHONE_NUMBER := "+15550000000"; OPENAI_API_KEY := EmptyString;
       RESTAURANT_NAME := "Restaurant"; RESTAURANT_PHONE := EmptyString;
       CREDIT_UNION_NAME := "Credit Union";
       BUSINESS_HOURS_START := 9; BUSINESS_HOURS_END := 17;
       ONCALL_STAFF_PHONE := "+15559999999" |} true
    {| id := 1; customer_name := "John Smith"; phone := "+15551234567";
       email := None; reason := "my card was stolen"; priority := MEDIUM;
       call_time := 3 |}
  = [].
Proof.
  apply staff_page_rule. by left.
Defined.

Section Turn.
Context `{Json} `{OpenAI}.

Lemma fallback_inquiry_priority (text : string) (known : gmap string string) :
  inquiry_priority (_extract_with_fallback text known)
  = if String.eqb (_determine_priority text) "URGENT" then URGENT
    else if String.eqb (_determine_priority text) "HIGH" then HIGH
    else MEDIUM.
Proof.
  unfold inquiry_priority. rewrite ExtractorFacts.fallback_priority. simpl default.
  by destruct (ExtractorFacts.determine_priority_cases text) as [-> | [-> | ->]].
Qed.

(** X18. The handler with its notifications does to the database and
    answers what the handler alone does, and sends at most one message.  With
    the pattern-matching extractor a turn pages the staff exactly when it
    completes the call, the utterance of that very turn has an urgent or a
    high-priority keyword, an on-call number is configured and a Twilio
    client exists: keywords of earlier turns do not count. *)
Theorem turn_pages_staff (settings : Settings) (client : bool) (db : DB)
    (text sid : string) (now : Z) :
  openai_enabled = false →
  let r := handle_after_hours_inquiry_sms settings client db text sid now in
  r.1 = handle_after_hours_inquiry db text sid now
  ∧ length r.2 ≤ 1
  ∧ (r.2 ≠ []
     ↔ r.1.2.2 = true
       ∧ _determine_priority text ≠ "MEDIUM"
       ∧ nonempty (ONCALL_STAFF_PHONE settings) = true
       ∧ client = true).
Proof.
  intros Hoff r. unfold r, handle_after_hours_inquiry_sms, handle_after_hours_inquiry.
  set (info := extract_customer_info text (get_session_data db sid)).
  destruct (missing_fields info) as [|field rest] eqn:Hm; simpl;
    [|split; [done|]; split; [lia|]; split; [done|by intros (? & _)]].
  destruct (TurnFacts.create_inquiry_complete
              (update_session_data db sid info now) info now Hm)
    as (inquiry & -> & _ & Hprio & _).
  simpl. split; [done|].
  assert (Hp : priority inquiry
    = if String.eqb (_determine_priority text) "URGENT" then URGENT
      else if String.eqb (_determine_priority text) "HIGH" then HIGH else MEDIUM).
  { rewrite Hprio. unfold info, extract_customer_info. rewrite Hoff.
    apply fallback_inquiry_priority. }
  pose proof (notification_sent settings client inquiry) as Hsend.
  pose proof (notification_withheld settings client inquiry) as Hkeep.
  destruct (ExtractorFacts.determine_priority_cases text) as [Ht | [Ht | Ht]];
    rewrite Ht in Hp |- *; simpl in Hp.
  - destruct (nonempty (ONCALL_STAFF_PHONE settings)) eqn:Hon, client eqn:Hcl;
      try (rewrite Hkeep by auto; simpl; split; [lia|]; split; [done|];
           by intros (_ & _ & ? & ?)).
    rewrite Hsend by auto. simpl. split; [lia|]. by split.
  - destruct (nonempty (ONCALL_STAFF_PHONE settings)) eqn:Hon, client eqn:Hcl;
      try (rewrite Hkeep by auto; simpl; split; [lia|]; split; [done|];
           by intros (_ & _ & ? & ?)).
    rewrite Hsend by auto. simpl. split; [lia|]. by split.
  - rewrite Hkeep by auto. simpl. split; [lia|]. split; [done|]. by intros (_ & ? & _).
Qed.

End Turn.

(** An urgent first utterance, then the name and the number: the completing
    turn has no keyword and nobody is paged. *)
Lemma turn_pages_staff_witness :
  (@handle_after_hours_inquiry_sms PyJson.python_json PyJson.demo_mode
     {| TWILIO_ACCOUNT_SID := "AC1"; TWILIO_AUTH_TOKEN := "token";
        TWILIO_PHONE_NUMBER := "+15550000000"; OPENAI_API_KEY := EmptyString;
        RESTAURANT_NAME := "Restaurant"; RESTAURANT_PHONE := EmptyString;
        CREDIT_UNION_NAME := "Credit Union";
        BUSINESS_HOURS_START := 9; BUSINESS_HOURS_END := 17;
        ONCALL_STAFF_PHONE := "+15559999999" |} true
     (@run_call PyJson.python_json PyJson.demo_mode empty_db "CA1"
        [("my card was stolen", 1%Z)])
     "my name is John Smith 555-123-4567" "CA1" 2).2
  = [].
Proof.
  match goal with |- (handle_after_hours_inquiry_sms ?s ?c ?d ?t ?i ?n).2 = [] =>
    destruct (@turn_pages_staff PyJson.python_json PyJson.demo_mode s c d t i n eq_refl)
      as (_ & _ & Hiff)
  end.
  match goal with |- ?l = [] => destruct l as [|sms l'] eqn:Hl; [done|] end.
  exfalso. destruct Hiff as [Hpaged _].
  destruct Hpaged as (_ & Hprio & _); [done|].
  clear Hl. vm_compute in Hprio. exact (Hprio eq_refl).
Defined.

End NotificationFacts.

(** ** Turns and calls *)

Module CallFacts.
Import Database FinancialService FinancialTurn Main.

Lemma create_inquiry_fields (db db' : DB) (info : gmap string string) (now : Z)
    (inquiry : FinancialInquiry) :
  create_inquiry db info now = Some (db', inquiry) →
  info !! "name" = Some (customer_name inquiry)
  ∧ info !! "phone" = Some (phone inquiry)
  ∧ info !! "reason" = Some (reason inquiry)
  ∧ call_time inquiry = now.
Proof.
  unfold create_inquiry.
  destruct (info !! "name"), (info !! "phone"), (info !! "reason"); simpl; try done.
  by intros [= <- <-].
Qed.

Lemma truthy_nonempty (s : string) : truthy (Some s) = true → s ≠ EmptyString.
Proof. by destruct s. Qed.

Section Call.
Context `{J : Json} `{O : OpenAI}.

(** The two ways a turn ends. *)
Lemma turn_cases (db : DB) (text sid : string) (now : Z) :
  call_sessions (handle_after_hours_inquiry db text sid now).1
  = call_sessions
      (update_session_data db sid (extract_customer_info text (get_session_data db sid)) now)
  ∧ ((∃ field rest,
        missing_fields (extract_customer_info text (get_session_data db sid)) = field :: rest
        ∧ (handle_after_hours_inquiry db text sid now).2 = (get_next_question field, false)
        ∧ financial_inquiries (handle_after_hours_inquiry db text sid now).1
          = financial_inquiries db)
     ∨ (∃ inquiry,
          missing_fields (extract_customer_info text (get_session_data db sid)) = []
          ∧ (handle_after_hours_inquiry db text sid now).2
            = (thank_you (customer_name inquiry), true)
          ∧ financial_inquiries (handle_after_hours_inquiry db text sid now).1
            = financial_inquiries db ++ [inquiry]
          ∧ extract_customer_info text (get_session_data db sid) !! "name"
            = Some (customer_name inquiry)
          ∧ extract_customer_info text (get_session_data db sid) !! "phone"
            = Some (phone inquiry)
          ∧ extract_customer_info text (get_session_data db sid) !! "reason"
            = Some (reason inquiry)
          ∧ call_time inquiry = now)).
Proof.
  unfold handle_after_hours_inquiry.
  set (info := extract_customer_info text (get_session_data db sid)).
  destruct (missing_fields info) as [|field rest] eqn:Hm.
  - destruct (TurnFacts.create_inquiry_complete
                (update_session_data db sid info now) info now Hm)
      as (inquiry & Hc & _).
    rewrite Hc. simpl. split; [done|]. right. exists inquiry.
    by apply create_inquiry_fields in Hc as (? & ? & ? & ?).
  - simpl. split; [done|]. left. by exists field, rest.
Qed.

Lemma missing_field_listed (info : gmap string string) (field : string) (rest : list string) :
  missing_fields info = field :: rest →
  field ∈ required_fields ∧ truthy (info !! field) = false.
Proof.
  intros Hm. assert (Hin : field ∈ missing_fields info) by (rewrite Hm; apply elem_of_cons; by left).
  unfold missing_fields in Hin. by apply list_elem_of_filter in Hin as [? ?].
Qed.

Lemma complete_fields_nonempty (info : gmap string string) (inquiry : FinancialInquiry) :
  missing_fields info = [] →
  info !! "name" = Some (customer_name inquiry) →
  info !! "phone" = Some (phone inquiry) →
  info !! "reason" = Some (reason inquiry) →
  customer_name inquiry ≠ EmptyString
  ∧ phone inquiry ≠ EmptyString
  ∧ reason inquiry ≠ EmptyString.
Proof.
  intros (Hn & Hp & Hr)%TurnFacts.missing_fields_nil En Ep Er.
  rewrite En in Hn. rewrite Ep in Hp. rewrite Er in Hr.
  by repeat split; apply truthy_nonempty.
Qed.



Lemma turn_other_sessions (db : DB) (text sid other : string) (now : Z) :
  other ≠ sid →
  call_sessions (handle_after_hours_inquiry db text sid now).1 !! other
  = call_sessions db !! other.
Proof.
  intros Hother. destruct (turn_cases db text sid now) as [-> _].
  unfold update_session_data. simpl. by apply lookup_insert_ne.
Qed.

(** X20. The turns of one call touch nothing that belongs to another call
    and only ever append to the inquiries: the session row of every other
    call id is as it was, the inquiries that were there are still there in
    the same order, at most one record is added per turn, and every added
    record has a non-empty name, phone and reason and the time of one of the
    turns. *)
Theorem call_frame (db : DB) (sid : string) (turns : list (string * Z)) :
  (∀ other, other ≠ sid →
     call_sessions (run_call db sid turns) !! other = call_sessions db !! other)
  ∧ ∃ added,
      financial_inquiries (run_call db sid turns) = financial_inquiries db ++ added
      ∧ length added ≤ length turns
      ∧ ∀ inquiry, inquiry ∈ added →
          customer_name inquiry ≠ EmptyString
          ∧ phone inquiry ≠ EmptyString
          ∧ reason inquiry ≠ EmptyString
          ∧ call_time inquiry ∈ turns.*2.
Proof.
  revert db. induction turns as [|[text now] turns IH]; intros db.
  - split; [done|]. exists []. rewrite app_nil_r. split; [done|]. split; [done|].
    by intros inquiry Hin%elem_of_nil.
  - unfold run_call in *. cbn [foldl fst snd].
    destruct (IH (handle_after_hours_inquiry db text sid now).1)
      as (Hother & added & Hadd & Hlen & Hok).
    split.
    { intros other Hne. rewrite Hother by done. by apply turn_other_sessions. }
    destruct (turn_cases db text sid now) as [_ [(field & rest & _ & _ & Hi)
      | (inquiry & Hm & _ & Hi & Hn & Hp & Hr & Ht)]].
    + exists added. rewrite Hadd, Hi. split; [done|]. split; [simpl; lia|].
      intros inquiry Hin. destruct (Hok inquiry Hin) as (? & ? & ? & ?).
      repeat split; try done. rewrite fmap_cons. apply elem_of_cons. by right.
    + exists (inquiry :: added). rewrite Hadd, Hi, <- (assoc_L (++)).
      split; [done|]. split; [simpl; lia|].
      intros inquiry' [-> | Hin]%elem_of_cons.
      * destruct (complete_fields_nonempty _ _ Hm Hn Hp Hr) as (? & ? & ?).
        repeat split; try done. rewrite fmap_cons. apply elem_of_cons. by left.
      * destruct (Hok inquiry' Hin) as (? & ? & ? & ?).
        repeat split; try done. rewrite fmap_cons. apply elem_of_cons. by right.
Qed.


(** X26. With the pattern-matching extractor the route never asks what the
    call is about: an utterance that reaches the handler is non-empty and
    becomes the reason when none is on file, so the reason question is not
    among the verbs of any reply. *)
Theorem reason_question_never_asked (db : DB) (SpeechResult CallSid : option string)
    (now : Z) (voice : option string) :
  openai_enabled = false →
  Say (get_next_question "reason") voice
  ∉ (process_financial_request db SpeechResult CallSid now).2.
Proof.
  intros Hoff. unfold process_financial_request.
  destruct (truthy SpeechResult) eqn:Hs; cbn [negb orb];
    [|intros [[=] | [[=] | []%elem_of_nil]%elem_of_cons]%elem_of_cons].
  destruct (truthy CallSid) eqn:Hc; cbn [negb orb];
    [|intros [[=] | [[=] | []%elem_of_nil]%elem_of_cons]%elem_of_cons].
  apply TurnFacts.truthy_Some in Hs as (text & -> & Htext). simpl default.
  set (sid := default EmptyString CallSid).
  assert (Hreason : truthy (extract_customer_info text (get_session_data db sid) !! "reason")
                    = true).
  { unfold extract_customer_info. rewrite Hoff, ExtractorFacts.fallback_reason.
    destruct (truthy (get_session_data db sid !! "reason")) eqn:E; [done|].
    by destruct text. }
  destruct (turn_cases db text sid now)
    as [_ [(field & rest & Hm & Hr & _) | (inquiry & _ & Hr & _)]];
    destruct (handle_after_hours_inquiry _ _ _ _) as [db' [reply flag]];
    simpl in Hr; injection Hr as -> ->; simpl.
  - apply missing_field_listed in Hm as [Hin Hmiss].
    intros [[= Hq _] | [[=] | []%elem_of_nil]%elem_of_cons]%elem_of_cons.
    unfold required_fields in Hin.
    apply elem_of_cons in Hin as [-> | Hin]; [by vm_compute in Hq|].
    apply elem_of_cons in Hin as [-> | Hin]; [by vm_compute in Hq|].
    apply list_elem_of_singleton in Hin as ->. congruence.
  - by intros [[= Hq _] | []%elem_of_nil]%elem_of_cons.
Qed.

End Call.

Lemma reason_question_never_asked_witness :
  Main.Say (get_next_question "reason") (Some "Polly.Joanna")
  ∉ (@process_financial_request PyJson.python_json PyJson.demo_mode
       empty_db (Some "hello") (Some "CA1") 1).2.
Proof. by apply reason_question_never_asked. Defined.



End CallFacts.

(** ** Calls over a json library that reads back what it writes *)

Module SessionFacts.
Import Database VoiceService FinancialService FinancialTurn.

Section Session.
Context `{J : Json} `{O : OpenAI}.
Hypothesis lawful : json_round_trip J.

(** What a turn extracted is what the next turn of the call starts from. *)
Lemma turn_session (db : DB) (text sid : string) (now : Z) :
  get_session_data (handle_after_hours_inquiry db text sid now).1 sid
  = extract_customer_info text (get_session_data db sid).
Proof.
  destruct (CallFacts.turn_cases db text sid now) as [Hs _].
  rewrite (TurnClaims.get_session_data_sessions _ _ sid Hs).
  destruct (lawful (extract_customer_info text (get_session_data db sid))) as [Hne Hload].
  by apply TurnFacts.session_loaded_back.
Qed.

Lemma run_call_snoc (db : DB) (sid : string) (turns : list (string * Z)) (turn : string * Z) :
  run_call db sid (turns ++ [turn])
  = (handle_after_hours_inquiry (run_call db sid turns) turn.1 sid turn.2).1.
Proof. unfold run_call. by rewrite foldl_app. Qed.

(** X22. Over a json library that reads back what it writes, the session
    row is a faithful store: the fields on file after the turns of a call
    are the extractor folded over the utterances, starting from the fields
    that were on file. *)
Theorem session_is_fold (db : DB) (sid : string) (turns : list (string * Z)) :
  get_session_data (run_call db sid turns) sid
  = foldl (fun known turn => extract_customer_info turn.1 known)
          (get_session_data db sid) turns.
Proof.
  induction turns as [|turn turns IH] using rev_ind; [done|].
  by rewrite run_call_snoc, turn_session, foldl_app, IH.
Qed.

Hypothesis patterns : openai_enabled = false.

Lemma turn_field (db : DB) (text sid field : string) (now : Z) :
  session_field (handle_after_hours_inquiry db text sid now).1 sid field
  = _extract_with_fallback text (get_session_data db sid) !! field.
Proof.
  unfold session_field. rewrite turn_session. unfold extract_customer_info.
  by rewrite patterns.
Qed.

Lemma call_keeps_first (db : DB) (sid field : string) (turns : list (string * Z)) :
  field ∈ ["name"; "reason"] →
  truthy (session_field db sid field) = true →
  session_field (run_call db sid turns) sid field = session_field db sid field.
Proof.
  intros Hfield Hset. induction turns as [|turn turns IH] using rev_ind; [done|].
  rewrite run_call_snoc, turn_field. rewrite <- IH in Hset. rewrite <- IH.
  unfold session_field in *.
  apply elem_of_cons in Hfield as [-> | Hfield].
  - by apply ExtractorFacts.fallback_keeps_name.
  - apply list_elem_of_singleton in Hfield as ->.
    by rewrite ExtractorFacts.fallback_reason, Hset.
Qed.

(** X23. With the pattern-matching extractor, over a json library that
    reads back what it writes, the first value of the name and of the reason
    stays for the rest of the call: a non-empty name or
    reason on file is the same after any further turns.  When no reason is
    on file, the reason after the turns is the first non-empty utterance
    among them (the empty string when every utterance is empty). *)
Theorem call_first_values (db : DB) (sid : string) (turns : list (string * Z)) :
  (∀ field, field ∈ ["name"; "reason"] →
     truthy (session_field db sid field) = true →
     session_field (run_call db sid turns) sid field = session_field db sid field)
  ∧ (truthy (session_field db sid "reason") = false → turns ≠ [] →
     session_field (run_call db sid turns) sid "reason"
     = Some (default EmptyString (head (filter (fun text => text ≠ EmptyString) turns.*1)))).
Proof.
  split; [intros field; apply call_keeps_first|].
  revert db. induction turns as [|[text now] turns IH]; intros db Hunset Hturns; [done|].
  clear Hturns.
  assert (Hfirst : session_field (handle_after_hours_inquiry db text sid now).1 sid "reason"
                   = Some text).
  { rewrite turn_field, ExtractorFacts.fallback_reason.
    unfold session_field in Hunset. by rewrite Hunset. }
  change (run_call db sid ((text, now) :: turns))
    with (run_call (handle_after_hours_inquiry db text sid now).1 sid turns).
  rewrite fmap_cons, filter_cons. cbn [fst].
  destruct (decide (text ≠ EmptyString)) as [Htext | Htext].
  - rewrite call_keeps_first; [done| |].
    + apply elem_of_cons. right. by apply list_elem_of_singleton.
    + rewrite Hfirst. by destruct text.
  - apply dec_stable in Htext as ->.
    destruct turns as [|turn turns]; [done|].
    apply IH; [by rewrite Hfirst|done].
Qed.

(** X24. With the pattern-matching extractor, over a json library that
    reads back what it writes, the phone number and the email address on file
    after the turns of a call are those recognized in the last utterance that
    holds one; when no utterance of the call holds
    one, the value on file is kept. *)
Theorem call_latest_contact (db : DB) (sid : string) (turns : list (string * Z)) :
  session_field (run_call db sid turns) sid "phone"
  = match last (omap extract_phone_number turns.*1) with
    | Some p => Some p
    | None => session_field db sid "phone"
    end
  ∧ session_field (run_call db sid turns) sid "email"
    = match last (omap extract_email turns.*1) with
      | Some e => Some e
      | None => session_field db sid "email"
      end.
Proof.
  induction turns as [|[text now] turns [IHp IHe]] using rev_ind; [done|].
  rewrite run_call_snoc, !turn_field, fmap_app, !omap_app.
  rewrite ExtractorFacts.fallback_phone, ExtractorFacts.fallback_email.
  cbn [fmap list_fmap omap list_omap fst snd].
  split.
  - destruct (extract_phone_number text) as [p|].
    + by rewrite last_snoc.
    + by rewrite app_nil_r.
  - destruct (extract_email text) as [e|].
    + by rewrite last_snoc.
    + by rewrite app_nil_r.
Qed.

(** X25. Nothing stops a completed call from filing again.  With the
    pattern-matching extractor, over a json library that reads back what it
    writes, once name, phone and reason are on file
    every further turn of the call adds one more record, so the turns add as
    many records as there are turns, each under the name and with the reason
    that were on file. *)
Theorem complete_call_keeps_filing (db : DB) (sid : string) (turns : list (string * Z)) :
  missing_fields (get_session_data db sid) = [] →
  ∃ added,
    financial_inquiries (run_call db sid turns) = financial_inquiries db ++ added
    ∧ length added = length turns
    ∧ ∀ inquiry, inquiry ∈ added →
        Some (customer_name inquiry) = session_field db sid "name"
        ∧ Some (reason inquiry) = session_field db sid "reason".
Proof.
  revert db. induction turns as [|[text now] turns IH]; intros db Hcomplete.
  - exists []. rewrite app_nil_r. split; [done|]. split; [done|].
    by intros inquiry Hin%elem_of_nil.
  - change (run_call db sid ((text, now) :: turns))
      with (run_call (handle_after_hours_inquiry db text sid now).1 sid turns).
    pose proof Hcomplete as (Hname & _ & Hreason)%TurnFacts.missing_fields_nil.
    assert (Hinfo : extract_customer_info text (get_session_data db sid)
                    = _extract_with_fallback text (get_session_data db sid)).
    { unfold extract_customer_info. by rewrite patterns. }
    assert (Hstill : missing_fields (_extract_with_fallback text (get_session_data db sid))
                     = []) by by apply TurnClaims.fallback_keeps_complete.
    destruct (IH (handle_after_hours_inquiry db text sid now).1)
      as (added & Hadd & Hlen & Hsame).
    { by rewrite turn_session, Hinfo. }
    destruct (CallFacts.turn_cases db text sid now)
      as [_ [(field & rest & Hm & _) | (inquiry & _ & _ & Hi & Hn & _ & Hr & _)]].
    { by rewrite Hinfo, Hstill in Hm. }
    rewrite Hinfo in Hn, Hr.
    rewrite ExtractorFacts.fallback_keeps_name in Hn by done.
    rewrite ExtractorFacts.fallback_reason, Hreason in Hr.
    exists (inquiry :: added). rewrite Hadd, Hi, <- (assoc_L (++)).
    split; [done|]. split; [simpl; lia|].
    intros inquiry' [-> | Hin]%elem_of_cons; [by unfold session_field|].
    destruct (Hsame inquiry' Hin) as [Hn' Hr'].
    rewrite !turn_field in Hn', Hr'.
    rewrite ExtractorFacts.fallback_keeps_name in Hn' by done.
    rewrite ExtractorFacts.fallback_reason, Hreason in Hr'.
    by unfold session_field.
Qed.

End Session.

Lemma session_is_fold_witness :
  @get_session_data PyJson.python_json
    (@run_call PyJson.python_json PyJson.demo_mode empty_db "CA1"
       [("my card was stolen", 1%Z); ("my name is John Smith", 2%Z)]) "CA1" !! "name"
  = Some "John Smith".
Proof.
  rewrite (@session_is_fold PyJson.python_json PyJson.demo_mode
             PyJsonFacts.python_json_round_trip).
  vm_compute. reflexivity.
Defined.

Lemma call_first_values_witness :
  @session_field PyJson.python_json
    (@run_call PyJson.python_json PyJson.demo_mode empty_db "CA1"
       [("my card was stolen", 1%Z); ("my name is John Smith", 2%Z);
        ("555-123-4567", 3%Z)]) "CA1" "reason"
  = Some "my card was stolen".
Proof.
  destruct (@call_first_values PyJson.python_json PyJson.demo_mode
              PyJsonFacts.python_json_round_trip eq_refl empty_db "CA1"
              [("my card was stolen", 1%Z); ("my name is John Smith", 2%Z);
               ("555-123-4567", 3%Z)]) as [_ Hreason].
  rewrite Hreason; [|reflexivity|discriminate].
  vm_compute. reflexivity.
Defined.

Lemma call_latest_contact_witness :
  @session_field PyJson.python_json
    (@run_call PyJson.python_json PyJson.demo_mode empty_db "CA1"
       [("call me on 444-333-2222", 1%Z); ("no, make that 555-123-4567", 2%Z);
        ("thank you", 3%Z)]) "CA1" "phone"
  = Some "+15551234567".
Proof.
  destruct (@call_latest_contact PyJson.python_json PyJson.demo_mode
              PyJsonFacts.python_json_round_trip eq_refl empty_db "CA1"
              [("call me on 444-333-2222", 1%Z); ("no, make that 555-123-4567", 2%Z);
               ("thank you", 3%Z)]) as [Hphone _].
  rewrite Hphone. vm_compute. reflexivity.
Defined.

Lemma complete_call_keeps_filing_witness :
  ∃ added,
    financial_inquiries
      (@run_call PyJson.python_json PyJson.demo_mode
         (@run_call PyJson.python_json PyJson.demo_mode empty_db "CA1"
            [("my name is John Smith 555-123-4567", 1%Z)])
         "CA1" [("thank you", 2%Z); ("goodbye", 3%Z)])
    = financial_inquiries
        (@run_call PyJson.python_json PyJson.demo_mode empty_db "CA1"
           [("my name is John Smith 555-123-4567", 1%Z)]) ++ added
    ∧ length added = 2.
Proof.
  destruct (@complete_call_keeps_filing PyJson.python_json PyJson.demo_mode
              PyJsonFacts.python_json_round_trip eq_refl
              (@run_call PyJson.python_json PyJson.demo_mode empty_db "CA1"
                 [("my name is John Smith 555-123-4567", 1%Z)])
              "CA1" [("thank you", 2%Z); ("goodbye", 3%Z)])
    as (added & Hadd & Hlen & _).
  - vm_compute. reflexivity.
  - exists added. split; [exact Hadd|exact Hlen].
Defined.

End SessionFacts.

(** ** What extraction leaves alone *)

Module ExtractionFrame.
Import VoiceService FinancialService.

Lemma fallback_is_Some (text : string) (known : gmap string string) (k : string) :
  is_Some (known !! k) → is_Some (_extract_with_fallback text known !! k).
Proof.
  intros Hk. unfold _extract_with_fallback. cbv zeta.
  repeat case_match; repeat (apply lookup_insert_is_Some'; right); done.
Qed.

Lemma fallback_other_key (text : string) (known : gmap string string) (k : string) :
  k ∉ ["name"; "phone"; "email"; "reason"; "priority"] →
  _extract_with_fallback text known !! k = known !! k.
Proof.
  intros Hk.
  assert (Hne : ∀ field, field ∈ ["name"; "phone"; "email"; "reason"; "priority"] →
                         field ≠ k) by (by intros field Hin ->).
  unfold _extract_with_fallback. cbv zeta.
  repeat case_match;
    repeat (rewrite lookup_insert_ne by (apply Hne; repeat constructor)); done.
Qed.

(** X27. Extraction never drops a field: every key of the known field set
    is a key of the result, with the model or without.  The pattern-matching
    extractor writes no key but name, phone, email, reason and priority, and
    its result always has a reason and a priority. *)
Theorem extraction_keeps_fields `{OpenAI} (text : string) (known : gmap string string) :
  (∀ k, is_Some (known !! k) → is_Some (extract_customer_info text known !! k))
  ∧ (∀ k, k ∉ ["name"; "phone"; "email"; "reason"; "priority"] →
       _extract_with_fallback text known !! k = known !! k)
  ∧ is_Some (_extract_with_fallback text known !! "reason")
  ∧ is_Some (_extract_with_fallback text known !! "priority").
Proof.
  split; [|split; [|split]].
  - intros k Hk. unfold extract_customer_info, _extract_with_ai.
    destruct openai_enabled; [|by apply fallback_is_Some].
    destruct (openai_fields text known) as [result|]; [|by apply fallback_is_Some].
    apply lookup_union_is_Some. by right.
  - apply fallback_other_key.
  - rewrite ExtractorFacts.fallback_reason.
    destruct (truthy (known !! "reason")) eqn:E; [|done].
    apply TurnFacts.truthy_Some in E as (s & -> & _). done.
  - by rewrite ExtractorFacts.fallback_priority.
Qed.

End ExtractionFrame.

(** ** Demo mode *)

Module DemoFacts.
Import Database Config VoiceService FinancialService NotificationService FinancialTurn Replies.

Lemma placeholder_credentials (settings : Settings) :
  TWILIO_ACCOUNT_SID settings ∈ [EmptyString; "demo_account_sid"]
  ∨ TWILIO_AUTH_TOKEN settings ∈ [EmptyString; "demo_auth_token"] →
  real_twilio_credentials settings = false.
Proof.
  unfold real_twilio_credentials.
  intros [[-> | ->%list_elem_of_singleton]%elem_of_cons
         | [-> | ->%list_elem_of_singleton]%elem_of_cons]; simpl;
    by rewrite ?andb_false_r.
Qed.

(** X28. Without real Twilio credentials (the account id or the token unset
    or left at its demo value) no client is built, and no turn of any call
    sends a message, whatever the priority of the record it creates and
    whatever on-call number is configured. *)
Theorem demo_credentials_send_nothing `{Json} `{OpenAI} (settings : Settings)
    (client_built : bool) (db : DB) (text sid : string) (now : Z) :
  TWILIO_ACCOUNT_SID settings ∈ [EmptyString; "demo_account_sid"]
  ∨ TWILIO_AUTH_TOKEN settings ∈ [EmptyString; "demo_auth_token"] →
  twilio_client settings client_built = false
  ∧ (handle_after_hours_inquiry_sms settings (twilio_client settings client_built)
       db text sid now).2 = [].
Proof.
  intros Hdemo%placeholder_credentials.
  assert (Hclient : twilio_client settings client_built = false).
  { unfold twilio_client. by rewrite Hdemo. }
  split; [done|]. rewrite Hclient. unfold handle_after_hours_inquiry_sms.
  destruct (missing_fields _); [|done].
  destruct (create_inquiry _ _ _) as [[db' inquiry]|]; [|done].
  simpl. apply NotificationFacts.notification_withheld. auto.
Qed.

Lemma demo_credentials_send_nothing_witness :
  (@handle_after_hours_inquiry_sms PyJson.python_json PyJson.demo_mode
     defaults (twilio_client defaults true) empty_db
     "my card was stolen, my name is John Smith 555-123-4567" "CA1" 1).2 = [].
Proof.
  apply (@demo_credentials_send_nothing PyJson.python_json PyJson.demo_mode defaults true).
  left. apply elem_of_cons. by left.
Defined.

(** X29. Without a real OpenAI key (unset or left at its demo value) the
    switch computed at start-up is off whether or not the library imports,
    and a service that runs with that switch extracts with the patterns and
    classifies and replies with the keyword rules: the model is not
    consulted. *)
Theorem demo_key_uses_rules `{O : OpenAI} `{ChatModel} (settings : Settings)
    (imported : bool) (text context : string) (known : gmap string string) :
  OPENAI_API_KEY settings ∈ [EmptyString; "demo_openai_key"] →
  openai_enabled = init_openai_enabled settings imported →
  extract_customer_info text known = _extract_with_fallback text known
  ∧ classify_intent text context = inl (_fallback_intent_classification text context)
  ∧ ∀ d, generate_smart_response d text context
         = _generate_fallback_response (get_intent d) context.
Proof.
  intros Hkey Hswitch.
  assert (Hoff : openai_enabled = false).
  { rewrite Hswitch. unfold init_openai_enabled.
    by apply elem_of_cons in Hkey as [-> | ->%list_elem_of_singleton]. }
  unfold extract_customer_info, classify_intent, generate_smart_response.
  by rewrite Hoff.
Qed.

#[local] Instance configured (settings : Settings) (imported : bool) : OpenAI :=
  {| openai_enabled := init_openai_enabled settings imported;
     openai_fields := fun _ _ => Some ∅ |}.

Lemma demo_key_uses_rules_witness :
  @extract_customer_info (configured defaults true) "my card was stolen" ∅ !! "priority"
  = Some "URGENT".
Proof.
  destruct (@demo_key_uses_rules (configured defaults true) ReplyFacts.eager_chat
              defaults true "my card was stolen" "financial" ∅) as [-> _].
  - apply elem_of_cons. by left.
  - reflexivity.
  - vm_compute. reflexivity.
Defined.

End DemoFacts.

(** ** Sample data *)

Module SampleDataFacts.
Import SampleData.

(** X30. Start-up never duplicates the sample menu.  However often
    [init_sample_data] runs and whichever of its commits fail, a table that
    had rows is left as it was, and an empty table ends up with exactly the
    three sample items if some run committed and empty otherwise. *)
Theorem sample_data_once (table : list MenuItem) (commits : list bool) :
  foldl init_sample_data table commits
  = match table with
    | [] => if existsb (fun committed => committed) commits then menu_items else []
    | _ :: _ => table
    end.
Proof.
  revert table. induction commits as [|committed commits IH]; intros table.
  - by destruct table.
  - cbn [foldl existsb]. rewrite IH. destruct table as [|item table]; [|done].
    by destruct committed.
Qed.

End SampleDataFacts.
